(** * mathics.eval.image: helper functions for images

    A shallow embedding of [mathics/eval/image.py] and the properties its
    specification states about it.

    The module is a thin layer over NumPy and Pillow.  The embedding follows
    the Python text function by function; what belongs to the libraries is
    modelled in the modules [Float] (IEEE 754 binary32/binary64 arithmetic on
    finite values), [Numpy] (shapes, dtype promotion, [pad], slicing, the FFT
    pipeline) and by the record [Host] (the Mathics evaluator and Pillow's tag
    dictionary).  NumPy semantics are those of the 1.x series the module was
    written for (value-based casting of Python scalars). *)

From stdpp Require Import base list gmap strings sorting pretty.
From Stdlib Require Import ZArith QArith Lia.

Local Open Scope Z_scope.
Set Warnings "-register-all".

(** ** Python exceptions and results *)

(** Instances of [Exception] that the module or its libraries raise. *)
Inductive exn :=
| NotImplementedError
| IndexError
| ValueError
| HostError (msg : string).

Inductive result (A : Type) :=
| Return (a : A)
| Raise (e : exn).
Arguments Return {A} a.
Arguments Raise {A} e.

Definition bind {A B} (r : result A) (k : A → result B) : result B :=
  match r with
  | Return a => k a
  | Raise e => Raise e
  end.

Notation "'let*' x ':=' r 'in' k" := (bind r (fun x => k))
  (at level 10, x name, r at level 100, k at level 200, only parsing).

(** ** Finite IEEE 754 binary floating point *)

Module Float.

(** A finite value [mant * 2 ^ expo]. *)
Record t := mk { mant : Z; expo : Z }.

(** A binary format: precision in bits and the exponent of the smallest
    subnormal.  Overflow to infinity is outside the model: the module
    handles pixel intensities, which stay far below the largest finite
    number of either format. *)
Record format := { prec : Z; emin : Z }.

Definition binary32 : format := {| prec := 24; emin := -149 |}.
Definition binary64 : format := {| prec := 53; emin := -1074 |}.

(** [n / d] for [0 <= n], [0 < d], rounded to the nearest integer, ties to
    even. *)
Definition rne (n d : Z) : Z :=
  let '(q, r) := Z.div_eucl n d in
  match 2 * r ?= d with
  | Lt => q
  | Gt => q + 1
  | Eq => if Z.even q then q else q + 1
  end.

(** [a * 2 ^ e] as a quotient of integers: the numerator over the
    denominator [d], for an exponent of either sign. *)
Definition scaled (a d e : Z) : Z * Z :=
  (Z.shiftl a (Z.max 0 (- e)), Z.shiftl d (Z.max 0 e)).

(** The rational [n / d], [0 < d], rounded to the format: the exponent [e]
    is the one that leaves [prec] bits in [|n| / (d * 2 ^ e)], but not
    below [emin]. *)
Definition round_ratio (f : format) (n d : Z) : t :=
  if n =? 0 then mk 0 0
  else
    let a := Z.abs n in
    let e0 := Z.log2 a - Z.log2 d - prec f in
    let e1 := let '(x, y) := scaled a d e0 in
              if Z.shiftl y (prec f) <=? x then e0 + 1 else e0 in
    let e := Z.max e1 (emin f) in
    let '(x, y) := scaled a d e in
    mk (Z.sgn n * rne x y) e.

Definition of_Z (f : format) (z : Z) : t := round_ratio f z 1.

(** Division by a non-zero value: the module divides by the literals
    [255.0], [65535.0] and [256] only. *)
Definition div (f : format) (x y : t) : t :=
  let s := expo x - expo y in
  round_ratio f (Z.shiftl (Z.sgn (mant y) * mant x) (Z.max 0 s))
                (Z.shiftl (Z.abs (mant y)) (Z.max 0 (- s))).

Definition mul (f : format) (x y : t) : t :=
  let s := expo x + expo y in
  round_ratio f (Z.shiftl (mant x * mant y) (Z.max 0 s))
                (Z.shiftl 1 (Z.max 0 (- s))).

Definition leb (x y : t) : bool :=
  let e := Z.min (expo x) (expo y) in
  Z.shiftl (mant x) (expo x - e) <=? Z.shiftl (mant y) (expo y - e).

(** [numpy.minimum] and [numpy.maximum] on finite values. *)
Definition minimum (x y : t) : t := if leb x y then x else y.
Definition maximum (x y : t) : t := if leb x y then y else x.

(** Truncation toward zero, the C conversion to an integer type. *)
Definition trunc (x : t) : Z :=
  Z.quot (Z.shiftl (mant x) (Z.max 0 (expo x))) (Z.shiftl 1 (Z.max 0 (- expo x))).

(** The exact value as a rational. *)
Definition to_Q (x : t) : Q :=
  (inject_Z (Z.shiftl (mant x) (Z.max 0 (expo x)))
   / inject_Z (Z.shiftl 1 (Z.max 0 (- expo x))))%Q.

End Float.

(** ** NumPy arrays of pixels *)

Module Numpy.

(** A pixel buffer: rows, columns, channels. *)
Definition arr3 (A : Type) : Type := list (list (list A)).

Definition map3 {A B} (f : A → B) (a : arr3 A) : arr3 B :=
  map (map (map f)) a.

Inductive float_dtype := float32 | float64.
Inductive uint_dtype := uint8 | uint16 | uint32 | uint64.

Definition float_format (d : float_dtype) : Float.format :=
  match d with
  | float32 => Float.binary32
  | float64 => Float.binary64
  end.

Definition bits (d : uint_dtype) : Z :=
  match d with
  | uint8 => 8
  | uint16 => 16
  | uint32 => 32
  | uint64 => 64
  end.

(** An array with its dtype.  [other_array] stands for every dtype the
    module does not handle (signed integers, float16, complex, object). *)
Inductive ndarray :=
| float_array (d : float_dtype) (a : arr3 Float.t)
| uint_array (d : uint_dtype) (a : arr3 Z)
| bool_array (a : arr3 bool)
| other_array (dtype_name : string).

(** [numpy.min_scalar_type] of a non-negative Python integer. *)
Definition min_scalar_type (k : Z) : uint_dtype :=
  if k <? 2 ^ 8 then uint8
  else if k <? 2 ^ 16 then uint16
  else if k <? 2 ^ 32 then uint32
  else uint64.

Definition promote_types (d1 d2 : uint_dtype) : uint_dtype :=
  if bits d1 <=? bits d2 then d2 else d1.

Definition wrap (d : uint_dtype) (z : Z) : Z := z mod 2 ^ bits d.

(** [a.astype(d)] between unsigned integer types. *)
Definition uint_astype (d : uint_dtype) (a : arr3 Z) : arr3 Z :=
  map3 (wrap d) a.

(** [a.astype(numpy.uint8)] on a boolean array. *)
Definition bool_astype_uint (a : arr3 bool) : arr3 Z :=
  map3 (fun b : bool => if b then 1 else 0) a.

(** [a.astype(numpy.float32)] on a boolean array. *)
Definition bool_astype_float (f : float_dtype) (a : arr3 bool) : arr3 Float.t :=
  map3 (fun b : bool => Float.of_Z (float_format f) (if b then 1 else 0)) a.

(** [a.astype(f)] on an unsigned integer array. *)
Definition uint_astype_float (f : float_dtype) (a : arr3 Z) : arr3 Float.t :=
  map3 (Float.of_Z (float_format f)) a.

(** [a.astype(d)] on a float array: truncation, then the value modulo the
    width of the target. *)
Definition float_astype_uint (d : uint_dtype) (a : arr3 Float.t) : arr3 Z :=
  map3 (fun x => wrap d (Float.trunc x)) a.

(** [a * k] for an unsigned array and a non-negative Python integer: under
    value-based casting the result dtype is the promotion of the array's
    dtype with the smallest dtype holding [k]; the product wraps there. *)
Definition uint_mul_scalar (d : uint_dtype) (a : arr3 Z) (k : Z)
  : uint_dtype * arr3 Z :=
  let d' := promote_types d (min_scalar_type k) in
  (d', map3 (fun x => wrap d' (x * k)) a).

(** [a / k] for an unsigned array and a Python integer: true division,
    computed in float64 whatever the integer dtype. *)
Definition uint_true_divide (a : arr3 Z) (k : Z) : arr3 Float.t :=
  map3 (fun x => Float.div Float.binary64 (Float.of_Z Float.binary64 x)
                           (Float.of_Z Float.binary64 k)) a.

(** [a / c] and [a * c] for a float array and a Python float: the scalar
    is cast to the array's dtype, the operation rounds in that dtype. *)
Definition float_div_scalar (f : float_dtype) (a : arr3 Float.t) (c : Float.t)
  : arr3 Float.t :=
  map3 (fun x => Float.div (float_format f) x c) a.

Definition float_mul_scalar (f : float_dtype) (a : arr3 Float.t) (c : Float.t)
  : arr3 Float.t :=
  map3 (fun x => Float.mul (float_format f) x c) a.

(** [numpy.maximum(numpy.minimum(a, 1.0), 0.0)]. *)
Definition clip01 (a : arr3 Float.t) : arr3 Float.t :=
  map3 (fun x => Float.maximum (Float.minimum x (Float.mk 1 0)) (Float.mk 0 0)) a.

(** [numpy.flipud] reverses the rows, [numpy.fliplr] the columns. *)
Definition flipud {A} (a : arr3 A) : arr3 A := reverse a.
Definition fliplr {A} (a : arr3 A) : arr3 A := map reverse a.

End Numpy.

Import Numpy.

(** ** Pixel format conversions *)

Definition pixels_as_float (pixels : ndarray) : result ndarray :=
  match pixels with
  | float_array _ _ => Return pixels
  | uint_array uint8 a =>
      Return (float_array float32
                (float_div_scalar float32 (uint_astype_float float32 a) (Float.mk 255 0)))
  | uint_array uint16 a =>
      Return (float_array float32
                (float_div_scalar float32 (uint_astype_float float32 a) (Float.mk 65535 0)))
  | bool_array a => Return (float_array float32 (bool_astype_float float32 a))
  | _ => Raise NotImplementedError
  end.

Definition pixels_as_ubyte (pixels : ndarray) : result ndarray :=
  match pixels with
  | float_array f a =>
      let pixels := clip01 a in
      Return (uint_array uint8
                (float_astype_uint uint8 (float_mul_scalar f pixels (Float.mk 255 0))))
  | uint_array uint8 _ => Return pixels
  | uint_array uint16 a =>
      Return (uint_array uint8 (float_astype_uint uint8 (uint_true_divide a 256)))
  | bool_array a =>
      let '(d, b) := uint_mul_scalar uint8 (bool_astype_uint a) 255 in
      Return (uint_array d b)
  | _ => Raise NotImplementedError
  end.

Definition pixels_as_uint (pixels : ndarray) : result ndarray :=
  match pixels with
  | float_array f a =>
      let pixels := clip01 a in
      Return (uint_array uint16
                (float_astype_uint uint16 (float_mul_scalar f pixels (Float.mk 65535 0))))
  | uint_array uint8 a =>
      let '(d, b) := uint_mul_scalar uint16 (uint_astype uint16 a) 256 in
      Return (uint_array d b)
  | uint_array uint16 _ => Return pixels
  | bool_array a =>
      let '(d, b) := uint_mul_scalar uint8 (bool_astype_uint a) 65535 in
      Return (uint_array d b)
  | _ => Raise NotImplementedError
  end.

(** ** Flipping *)

(** Indexing the pair [(numpy.flipud, numpy.fliplr)] with a Python integer:
    indices [-2 .. 1] are in range, a negative one counts from the end. *)
Definition tuple2_get {A} (x0 x1 : A) (i : Z) : result A :=
  if (i <? -2) || (2 <=? i) then Raise IndexError
  else
    let j := if i <? 0 then i + 2 else i in
    Return (if j =? 0 then x0 else x1).

Definition numpy_flip {A} (pixels : arr3 A) (axis : Z) : result (arr3 A) :=
  let* f := tuple2_get (@flipud A) (@fliplr A) axis in
  Return (f pixels).


(** ** Exif metadata *)

(** The Python values Pillow hands out for Exif entries.  [PyOther] stands
    for every other type (float, [None], [IFDRational], list, dict). *)
Inductive pyval :=
| PyTuple (items : list pyval)
| PyBytes (b : list Z)
| PyInt (z : Z)
| PyBool (b : bool)
| PyStr (s : string)
| PyOther (type_name : string).

(** Mathics expressions, as far as this module builds them. *)
Inductive Symbol := SymbolRule | SymbolSimplify | SymbolTrue | SymbolFalse.

Inductive Expr :=
| MString (s : string)
| Integer (z : Z)
| MSymbol (s : Symbol)
| HostAtom (repr : string)
| Expression (head : Symbol) (elements : list Expr)
| ListExpression (elements : list Expr).

(** An [Evaluation] is what [Expression.evaluate] is given; here it is the
    evaluator itself.  It may raise, and then so does the caller. *)
Definition Evaluation : Type := Expr → result Expr.

(** What the module imports from Mathics and Pillow.
    - [ExifTags]: [PIL.ExifTags.TAGS], or [{}] when Pillow is missing;
    - [Rational]: the constructor [Rational(v[0], v[1])];
    - [round2]: [from_python(value.round(2))]. *)
Record Host := {
  ExifTags : gmap Z string;
  Rational : pyval → pyval → result Expr;
  round2 : Expr → result Expr;
}.

(** [from_python] on the Python types [int], [bool] and [str]. *)
Definition from_python (v : pyval) : Expr :=
  match v with
  | PyInt z => Integer z
  | PyBool b => MSymbol (if b then SymbolTrue else SymbolFalse)
  | PyStr s => MString s
  | _ => HostAtom "from_python"
  end.

(** Names overriding the ones given by Pillow. *)
Definition Exif_names : gmap Z string :=
  {[ 37385 := "FlashInfo";
     40960 := "FlashpixVersion";
     40962 := "PixelXDimension";
     40963 := "PixelYDimension" ]}.

(** What [image.getexif()] returns: [None] or a mapping from tag to value. *)
Inductive exif_value :=
| ExifNone
| ExifMap (m : gmap Z pyval).

(** An image: [getexif] is [None] when the object has no such attribute,
    otherwise the outcome of calling it. *)
Record Image := { getexif : option (result exif_value) }.

(** Python's truth value of a string: [not name] holds for [None] and [""]. *)
Definition str_truthy (name : option string) : option string :=
  match name with
  | Some EmptyString => None
  | other => other
  end.

(** [" ".join([str(x) for x in v])]. *)
Definition join_bytes (v : list Z) : string :=
  String.concat " " (map pretty v).

(** [sorted(exif.items(), key=itemgetter(0))]. *)
Definition key_le (a b : Z * pyval) : Prop := a.1 ≤ b.1.
#[global] Instance key_le_dec a b : Decision (key_le a b) := Z_le_dec a.1 b.1.

Definition sorted_items (exif : gmap Z pyval) : list (Z * pyval) :=
  merge_sort key_le (map_to_list exif).

Section extract_exif.
Context (H : Host) (evaluation : Evaluation).

(** The branch on the Python type of [v]: the encoded value, or [None]
    where the loop says [continue]. *)
Definition exif_encode (name : string) (v : pyval) : result (option Expr) :=
  match v with
  | PyTuple [v0; v1] =>
      let* value := Rational H v0 v1 in
      let* value :=
        if String.eqb name "FocalLength" then round2 H value
        else evaluation (Expression SymbolSimplify [value]) in
      Return (Some value)
  | PyBytes b => Return (Some (MString (join_bytes b)))
  | PyInt _ | PyBool _ | PyStr _ => Return (Some (from_python v))
  | _ => Return None
  end.

(** One iteration of the loop over the sorted items. *)
Definition exif_step (exif_options : list Expr) (kv : Z * pyval)
  : result (list Expr) :=
  let '(k, v) := kv in
  match str_truthy (ExifTags H !! k) with
  | None => Return exif_options
  | Some name =>
      let* value := exif_encode name v in
      match value with
      | None => Return exif_options
      | Some value =>
          Return (exif_options ++
                  [Expression SymbolRule
                     [MString (default name (Exif_names !! k)); value]])
      end
  end.

Fixpoint exif_loop (exif_options : list Expr) (items : list (Z * pyval))
  : result (list Expr) :=
  match items with
  | [] => Return exif_options
  | kv :: items =>
      let* exif_options := exif_step exif_options kv in
      exif_loop exif_options items
  end.

Definition extract_exif (image : Image) : result (option Expr) :=
  match getexif image with
  | None => Return None
  | Some (Raise _) => Return None
  | Some (Return ExifNone) => Return None
  | Some (Return (ExifMap exif)) =>
      if decide (exif = ∅) then Return None
      else
        let* exif_options := exif_loop [] (sorted_items exif) in
        Return (Some (Expression SymbolRule
                        [MString "RawExif"; ListExpression exif_options]))
  end.

End extract_exif.

(** ** NumPy arrays of any dimension *)

Module Nd.

(** An array is its shape and its elements, addressed by a multi-index.
    Elements are exact rationals: the ideal value of what NumPy computes
    in floating point.  Shapes, which is what the statements below are
    about, do not depend on that idealisation. *)
Record array := { shape : list Z; item : list Z → Q }.

Definition ndim (a : array) : nat := length (shape a).

(** Every multi-index below a shape, in row-major order. *)
Fixpoint indices (s : list Z) : list (list Z) :=
  match s with
  | [] => [[]]
  | n :: s => i ← seqZ 0 n; (i ::.) <$> indices s
  end.

(** [a.ravel().tolist()]. *)
Definition ravel (a : array) : list Q := map (λ i, Qred (item a i)) (indices (shape a)).

(** [numpy.asarray] of a list of rows. *)
Definition of_rows (rows : list (list Q)) : array :=
  {| shape := [Z.of_nat (length rows); Z.of_nat (length (default [] (head rows)))];
     item idx :=
       match idx with
       | [i; j] => nth (Z.to_nat j) (nth (Z.to_nat i) rows []) 0%Q
       | _ => 0%Q
       end |}.

(** [numpy.asarray] of a flat list. *)
Definition of_list (l : list Q) : array :=
  {| shape := [Z.of_nat (length l)];
     item idx := match idx with [i] => nth (Z.to_nat i) l 0%Q | _ => 0%Q end |}.

(** Arithmetic of two one-dimensional integer arrays, with broadcasting:
    equal lengths, or one of them of length one. *)
Definition broadcast2 (f : Z → Z → Z) (x y : list Z) : result (list Z) :=
  if decide (length x = length y) then Return (zip_with f x y)
  else match x, y with
       | [x0], _ => Return (map (f x0) y)
       | _, [y0] => Return (map (λ xi, f xi y0) x)
       | _, _ => Raise ValueError
       end.

(** [numpy.pad]'s reading of [pad_width] ([_as_pairs]): one number pads
    every axis on both sides by it; two numbers are taken as (before,
    after) for every axis; anything else must broadcast to [(ndim, 2)],
    which a one-dimensional array of another length does not. *)
Definition as_pairs (x : list Z) (ndim : nat) : result (list (Z * Z)) :=
  match x with
  | [p] => if p <? 0 then Raise ValueError else Return (replicate ndim (p, p))
  | [p; q] =>
      if (p <? 0) || (q <? 0) then Raise ValueError
      else Return (replicate ndim (p, q))
  | _ => Raise ValueError
  end.

Definition clamp (lo hi i : Z) : Z := Z.max lo (Z.min hi i).

(** [numpy.pad(a, pad_width, "edge")]: an empty axis cannot be extended. *)
Definition pad_edge (a : array) (pad_width : list Z) : result array :=
  let* pairs := as_pairs pad_width (ndim a) in
  let axes := zip (shape a) pairs in
  if existsb (λ '(n, (b, e)), (n =? 0) && negb ((b =? 0) && (e =? 0))) axes
  then Raise ValueError
  else Return
    {| shape := map (λ '(n, (b, e)), n + b + e) axes;
       item idx := item a (zip_with (λ i '(n, (b, _)), clamp 0 (n - 1) (i - b)) idx axes) |}.

(** What [rfftn(a, s)] does to its input before transforming: crop or
    zero-pad to [s]. *)
Definition resized_item (a : array) (idx : list Z) : Q :=
  if forallb (λ '(i, n), i <? n) (zip idx (shape a)) then item a idx else 0%Q.

(** [rfftn(a, s)] needs [s] non-empty, no longer than [a.ndim], and at
    least one point along each axis. *)
Definition fft_args_ok (a : array) (s : list Z) : bool :=
  negb (bool_decide (s = [])) && bool_decide (length s ≤ ndim a)%nat
  && forallb (λ n, 1 <=? n) s.

(** [irfftn(rfftn(a, s) * rfftn(b, s), s)]: by the convolution theorem the
    circular convolution, over the box [s], of [a] and [b] resized to [s].
    The result has shape [s]. *)
Definition fft_convolve (a b : array) (s : list Z) : result array :=
  if fft_args_ok a s && fft_args_ok b s && bool_decide (ndim a = length s) then
    Return
      {| shape := s;
         item idx :=
           fold_right Qplus 0%Q
             (map (λ j, (resized_item a j *
                         resized_item b (zip_with (λ d n, d `mod` n)
                                           (zip_with Z.sub idx j) s))%Q)
                  (indices s)) |}
  else Raise ValueError.

(** Python's [slice(start, stop).indices(n)] with step one. *)
Definition slice_indices (start stop n : Z) : Z * Z :=
  let norm i := if i <? 0 then Z.max (i + n) 0 else Z.min i n in
  (norm start, norm stop).

(** [a[tuple(slice(start, stop) for ...)]]: basic slicing along the first
    axes. *)
Definition getitem (a : array) (slices : list (Z * Z)) : result array :=
  if bool_decide (length slices ≤ ndim a)%nat then
    let bounds := zip_with (λ n '(start, stop), slice_indices start stop n)
                           (shape a) slices in
    Return
      {| shape := map (λ '(lo, hi), Z.max 0 (hi - lo)) bounds
                  ++ drop (length slices) (shape a);
         item idx := item a (zip_with (λ i '(lo, _), i + lo) idx bounds
                             ++ drop (length slices) idx) |}
  else Raise IndexError.

End Nd.

(** ** Convolution *)

Definition convolve (in1 in2 : Nd.array) (fixed : bool) : result Nd.array :=
  let padding := map (λ k, k `div` 2) (Nd.shape in2) in
  let* in1 := if fixed then Nd.pad_edge in1 padding else Return in1 in
  let s1 := Nd.shape in1 in
  let s2 := Nd.shape in2 in
  let* shape := Nd.broadcast2 Z.add s1 s2 in
  let shape := map (λ n, n - 1) shape in
  let* ret := Nd.fft_convolve in1 in2 shape in
  let* excess := Nd.broadcast2 Z.sub (Nd.shape ret) s1 in
  let* excess := Nd.broadcast2 Z.add (map (λ n, n `div` 2) excess) padding in
  Nd.getitem ret (map (λ p, (p, - p)) excess).

(** ** Arrays as nested lists *)

(** What [tolist] returns: a scalar for a zero-dimensional array, a list
    of such values, one per index along the first axis, otherwise. *)
Inductive pylist :=
| PyScalar (x : Q)
| PyList (items : list pylist).

Fixpoint tolist_from (s : list Z) (f : list Z → Q) : pylist :=
  match s with
  | [] => PyScalar (f [])
  | n :: s => PyList (map (λ i, tolist_from s (λ idx, f (i :: idx))) (seqZ 0 n))
  end.

(** [a.tolist()]. *)
Definition tolist (a : Nd.array) : pylist :=
  tolist_from (Nd.shape a) (Nd.item a).

(** [a[:, :, 0]]: the third axis is indexed, and so dropped; it must exist
    and have a sample at index 0. *)
Definition first_channel (a : Nd.array) : result Nd.array :=
  match Nd.shape a with
  | h :: w :: c :: rest =>
      if c <=? 0 then Raise IndexError
      else Return
        {| Nd.shape := h :: w :: rest;
           Nd.item idx :=
             match idx with
             | i :: j :: idx => Nd.item a (i :: j :: 0 :: idx)
             | _ => 0%Q
             end |}
  | _ => Raise IndexError
  end.

Definition numpy_to_matrix (pixels : Nd.array) : result pylist :=
  match Nd.shape pixels !! 2%nat with
  | None => Raise IndexError
  | Some channels =>
      if channels =? 1 then
        let* plane := first_channel pixels in
        Return (tolist plane)
      else Return (tolist pixels)
  end.

(** ** Predicates used in the statements *)

(** Every element of a pixel buffer satisfies [P]. *)
Definition all3 {A} (P : A → Prop) (a : arr3 A) : Prop :=
  Forall (Forall (Forall P)) a.

(** The elements of an array of the unsigned dtype [d] lie in its range. *)
Definition in_range (d : uint_dtype) (x : Z) : Prop := 0 ≤ x < 2 ^ bits d.

(** The Python types of a value the loop has no branch for: its [else]
    says [continue]. *)
Definition unsupported (v : pyval) : Prop :=
  match v with
  | PyTuple [_; _] => False
  | PyTuple _ | PyOther _ => True
  | _ => False
  end.

(** The loop appends [rule] for the item [(k, v)]: the standard dictionary
    names the tag, the value encodes, and the rule carries the overriding
    name if there is one, the standard name otherwise. *)
Definition emits (H : Host) (evaluation : Evaluation) (k : Z) (v : pyval)
    (rule : Expr) : Prop :=
  ∃ name value,
    str_truthy (ExifTags H !! k) = Some name
    ∧ exif_encode H evaluation name v = Return (Some value)
    ∧ rule = Expression SymbolRule [MString (default name (Exif_names !! k)); value].

(** What the loop appends for an item when it does not raise. *)
Definition exif_rule (H : Host) (evaluation : Evaluation) (kv : Z * pyval)
  : option Expr :=
  match str_truthy (ExifTags H !! kv.1) with
  | None => None
  | Some name =>
      match exif_encode H evaluation name kv.2 with
      | Return (Some value) =>
          Some (Expression SymbolRule
                  [MString (default name (Exif_names !! kv.1)); value])
      | _ => None
      end
  end.

(** The expression [extract_exif] returns around the rules. *)
Definition RawExif (exif_options : list Expr) : Expr :=
  Expression SymbolRule [MString "RawExif"; ListExpression exif_options].

(** An image whose [getexif()] returns the mapping [exif]. *)
Definition image_with (exif : gmap Z pyval) : Image :=
  {| getexif := Some (Return (ExifMap exif)) |}.

(** A host for examples: Pillow is missing, so [ExifTags] is [{}]. *)
Definition no_pillow : Host :=
  {| ExifTags := ∅;
     Rational := λ _ _, Raise (HostError "Rational");
     round2 := λ e, Return e |}.

(** A host for examples with three of Pillow's tags; rationals are kept as
    atoms naming their numerator and denominator. *)
Definition small_host : Host :=
  {| ExifTags := {[ 271 := "Make"; 37386 := "FocalLength"; 40962 := "ExifImageWidth" ]};
     Rational := λ n d,
       match n, d with
       | PyInt n, PyInt d =>
           Return (HostAtom ("Rational(" +:+ pretty n +:+ ", " +:+ pretty d +:+ ")"))
       | _, _ => Raise (HostError "Rational")
       end;
     round2 := λ e, Return e |}.

(** An evaluator for examples: it returns its argument. *)
Definition no_evaluation : Evaluation := λ e, Return e.

(** The shape of the array a call returns, or the exception it raises. *)
Definition shape_of (r : result Nd.array) : result (list Z) :=
  let* a := r in Return (Nd.shape a).

(** The dtypes the three conversions have a branch for. *)
Definition supported (pixels : ndarray) : bool :=
  match pixels with
  | float_array _ _ | uint_array uint8 _ | uint_array uint16 _ | bool_array _ => true
  | _ => false
  end.

(** The samples of an unsigned array lie in the range of its dtype, as
    they do in every array NumPy builds. *)
Definition well_formed (pixels : ndarray) : Prop :=
  match pixels with
  | uint_array d a => all3 (in_range d) a
  | _ => True
  end.

(** The standard dictionary has a non-empty name for the tag of an item. *)
Definition named (H : Host) (kv : Z * pyval) : Prop :=
  is_Some (str_truthy (ExifTags H !! kv.1)).

#[global] Instance named_dec H kv : Decision (named H kv).
Proof. unfold named. apply _. Defined.


(** * Properties *)

(** ** Floating point: exact cases of rounding *)

Section float_facts.
Implicit Types (f : Float.format) (v : Float.t).

(** An equation between [x * 2 ^ e] and [y], written with the powers of
    either sign, is the same equation shifted by any offset [K >= |e|]. *)
Lemma balance (x y e K : Z) :
  Z.abs e ≤ K →
  x * 2 ^ Z.max 0 e = y * 2 ^ Z.max 0 (- e) ↔ x * 2 ^ (K + e) = y * 2 ^ K.
Proof.
  intros HK. destruct (Z.le_gt_cases 0 e) as [He|He].
  - rewrite (Z.max_r 0 e), (Z.max_l 0 (- e)) by lia.
    rewrite Z.pow_0_r, Z.mul_1_r, Z.pow_add_r by lia.
    assert (0 < 2 ^ K) by (apply Z.pow_pos_nonneg; lia). split; nia.
  - rewrite (Z.max_l 0 e), (Z.max_r 0 (- e)) by lia.
    rewrite Z.pow_0_r, Z.mul_1_r.
    replace K with ((K + e) + - e) at 2 by lia.
    rewrite (Z.pow_add_r 2 (K + e) (- e)) by lia.
    assert (0 < 2 ^ (K + e)) by (apply Z.pow_pos_nonneg; lia). split; nia.
Qed.

Lemma rne_multiple q y : 0 < y → Float.rne (q * y) y = q.
Proof.
  intros Hy. unfold Float.rne.
  pose proof (Z.div_mul q y ltac:(lia)) as Hq.
  pose proof (Z.mod_mul q y ltac:(lia)) as Hr.
  unfold Z.div, Z.modulo in Hq, Hr.
  destruct (Z.div_eucl (q * y) y) as [q' r']. subst q' r'.
  change (2 * 0) with 0. destruct y; [lia | reflexivity | lia].
Qed.

(** A ratio that the format holds exactly is not changed by rounding. *)
Lemma round_ratio_exact f n d M E :
  0 < Float.prec f → 0 < n → 0 < d →
  0 < M < 2 ^ Float.prec f → Float.emin f ≤ E →
  M * 2 ^ Z.max 0 E * d = n * 2 ^ Z.max 0 (- E) →
  let v := Float.round_ratio f n d in
  0 < Float.mant v ∧
  Float.mant v * 2 ^ Z.max 0 (Float.expo v) * d = n * 2 ^ Z.max 0 (- Float.expo v).
Proof.
  intros Hp Hn Hd [HM0 HM] HE Hval v. subst v. unfold Float.round_ratio.
  destruct (Z.eqb_spec n 0) as [|_]; [lia|].
  rewrite (Z.abs_eq n), (Z.sgn_pos n) by lia.
  set (p := Float.prec f) in *.
  set (e0 := Z.log2 n - Z.log2 d - p).
  set (K := Z.abs E + Z.abs e0 + Z.abs (Float.emin f) + 1).
  assert (HK : M * d * 2 ^ (K + E) = n * 2 ^ K).
  { apply (balance (M * d) n E K); [lia|]. lia. }
  destruct (Z.log2_spec n Hn) as [Hn1 Hn2].
  destruct (Z.log2_spec d Hd) as [Hd1 Hd2].
  pose proof (Z.log2_nonneg n) as Hln. pose proof (Z.log2_nonneg d) as Hld.
  assert (He0 : e0 ≤ E).
  { apply Z.nlt_ge. intros Hlt.
    assert (2 ^ p * 2 ^ Z.succ (Z.log2 d) * 2 ^ (K + E) ≤ 2 ^ Z.log2 n * 2 ^ K).
    { rewrite <- !Z.pow_add_r by lia. apply Z.pow_le_mono_r; lia. }
    assert (0 < 2 ^ (K + E)) by (apply Z.pow_pos_nonneg; lia).
    assert (0 < 2 ^ K) by (apply Z.pow_pos_nonneg; lia).
    assert (M * d < 2 ^ p * 2 ^ Z.succ (Z.log2 d)) by (apply Z.mul_lt_mono_nonneg; lia).
    nia. }
  unfold Float.scaled. rewrite !Z.shiftl_mul_pow2 by lia.
  set (e1 := if _ <=? _ then e0 + 1 else e0).
  assert (He1 : e1 ≤ E ∧ Z.abs e1 ≤ K).
  { subst e1. destruct (Z.leb_spec (d * 2 ^ Z.max 0 e0 * 2 ^ p) (n * 2 ^ Z.max 0 (- e0)))
      as [Ht|_]; [|lia].
    split; [|lia]. apply Z.nlt_ge. intros Hlt. assert (e0 = E) as HeE by lia.
    assert (Hb : (d * 2 ^ p) * 2 ^ (K + e0) ≤ n * 2 ^ K).
    { assert (0 < 2 ^ K) by (apply Z.pow_pos_nonneg; lia).
      assert (0 < 2 ^ (K + e0)) by (apply Z.pow_pos_nonneg; lia).
      destruct (Z.le_gt_cases 0 e0).
      - rewrite (Z.max_r 0 e0), (Z.max_l 0 (- e0)), Z.pow_0_r in Ht by lia.
        rewrite Z.pow_add_r by lia. nia.
      - rewrite (Z.max_l 0 e0), (Z.max_r 0 (- e0)), Z.pow_0_r in Ht by lia.
        replace K with ((K + e0) + - e0) at 2 by lia.
        rewrite (Z.pow_add_r 2 (K + e0) (- e0)) by lia. nia. }
    rewrite HeE in Hb. assert (0 < 2 ^ (K + E)) by (apply Z.pow_pos_nonneg; lia). nia. }
  destruct He1 as [He1 HK1].
  set (e := Z.max e1 (Float.emin f)).
  assert (He : e ≤ E) by lia. assert (HKe : Z.abs e ≤ K) by lia.
  assert (Hxy : n * 2 ^ Z.max 0 (- e) = (M * 2 ^ (E - e)) * (d * 2 ^ Z.max 0 e)).
  { symmetry.
    replace (M * 2 ^ (E - e) * (d * 2 ^ Z.max 0 e))
      with ((M * d * 2 ^ (E - e)) * 2 ^ Z.max 0 e) by ring.
    apply (balance (M * d * 2 ^ (E - e)) n e K HKe).
    rewrite <- HK. rewrite <- !Z.mul_assoc, <- Z.pow_add_r by lia.
    do 3 f_equal. lia. }
  assert (0 < d * 2 ^ Z.max 0 e) by (apply Z.mul_pos_pos; [lia | apply Z.pow_pos_nonneg; lia]).
  rewrite Hxy, rne_multiple by done. simpl.
  assert (0 < 2 ^ (E - e)) by (apply Z.pow_pos_nonneg; lia).
  assert (0 < M * 2 ^ (E - e)) by (apply Z.mul_pos_pos; lia).
  split; [destruct (M * 2 ^ (E - e)) eqn:?; lia|].
  destruct (M * 2 ^ (E - e)) eqn:?; lia.
Qed.

(** Truncating a value equal to the ratio [n / d] gives the integer
    quotient. *)
Lemma trunc_ratio v n d :
  0 ≤ n → 0 < d → 0 ≤ Float.mant v →
  Float.mant v * 2 ^ Z.max 0 (Float.expo v) * d = n * 2 ^ Z.max 0 (- Float.expo v) →
  Float.trunc v = n `div` d.
Proof.
  intros Hn Hd Hm Hv. unfold Float.trunc.
  rewrite !Z.shiftl_mul_pow2, Z.mul_1_l by lia.
  set (A := Float.mant v * 2 ^ Z.max 0 (Float.expo v)) in *.
  set (N := 2 ^ Z.max 0 (- Float.expo v)) in *.
  assert (0 < N) by (apply Z.pow_pos_nonneg; lia).
  assert (0 ≤ A) by (apply Z.mul_nonneg_nonneg; [lia | apply Z.pow_nonneg; lia]).
  rewrite Z.quot_div_nonneg by lia.
  rewrite <- (Z.div_mul_cancel_r A N d), <- (Z.div_mul_cancel_r n d N) by lia.
  rewrite Hv. f_equal. ring.
Qed.

Ltac zmax :=
  repeat match goal with
  | |- context [Z.max ?a ?b] =>
      first [rewrite (Z.max_l a b) by lia | rewrite (Z.max_r a b) by lia]
  end.

Lemma of_Z_256 :
  Float.of_Z Float.binary64 256 = Float.mk (2 ^ 52) (- 44).
Proof. reflexivity. Qed.

(** One uint16 sample through the uint16 branch of [pixels_as_ubyte]:
    the float64 quotient by 256 is exact, so truncating it gives the
    integer quotient. *)
Lemma uint16_to_ubyte_div x :
  in_range uint16 x →
  wrap uint8
    (Float.trunc
       (Float.div Float.binary64 (Float.of_Z Float.binary64 x)
                  (Float.of_Z Float.binary64 256)))
  = x `div` 256.
Proof.
  unfold in_range. simpl bits. intros Hx.
  assert (Hq : 0 ≤ x `div` 256 < 256).
  { split; [apply Z.div_pos; lia | apply Z.div_lt_upper_bound; lia]. }
  enough (Float.trunc (Float.div Float.binary64 (Float.of_Z Float.binary64 x)
                         (Float.of_Z Float.binary64 256)) = x `div` 256) as ->.
  { unfold wrap. simpl bits. apply Z.mod_small. lia. }
  rewrite of_Z_256.
  destruct (Z.eq_dec x 0) as [->|Hx0]; [reflexivity|].
  destruct (round_ratio_exact Float.binary64 x 1 x 0) as [HmX HX];
    [done | lia | lia | simpl; lia | done | zmax; lia |].
  fold (Float.of_Z Float.binary64 x) in HmX, HX.
  set (X := Float.of_Z Float.binary64 x) in *.
  unfold Float.div. cbn [Float.mant Float.expo].
  set (s := Float.expo X - - 44).
  change (Z.sgn (2 ^ 52)) with 1. change (Z.abs (2 ^ 52)) with (2 ^ 52).
  rewrite Z.mul_1_l, !Z.shiftl_mul_pow2 by lia.
  set (n' := Float.mant X * 2 ^ Z.max 0 s).
  set (d' := 2 ^ 52 * 2 ^ Z.max 0 (- s)).
  assert (0 < 2 ^ Z.max 0 s) by (apply Z.pow_pos_nonneg; lia).
  assert (0 < 2 ^ Z.max 0 (- s)) by (apply Z.pow_pos_nonneg; lia).
  assert (Hn' : 0 < n') by (apply Z.mul_pos_pos; lia).
  assert (Hd' : 0 < d') by (apply Z.mul_pos_pos; lia).
  assert (Hnd : x * d' = n' * 256).
  { subst n' d'.
    set (K := Z.abs (Float.expo X) + 44).
    assert (HK : Float.mant X * 2 ^ (K + 44 + Float.expo X) = x * 2 ^ (K + 44)).
    { apply (balance (Float.mant X) x (Float.expo X) (K + 44)); lia. }
    replace (x * (2 ^ 52 * 2 ^ Z.max 0 (- s))) with ((x * 2 ^ 52) * 2 ^ Z.max 0 (- s)) by ring.
    replace (Float.mant X * 2 ^ Z.max 0 s * 256)
      with ((Float.mant X * 256) * 2 ^ Z.max 0 s) by ring.
    symmetry. apply (balance (Float.mant X * 256) (x * 2 ^ 52) s K); [lia|].
    replace (K + s) with (K + 44 + Float.expo X) by lia.
    replace (Float.mant X * 256 * 2 ^ (K + 44 + Float.expo X))
      with (256 * (Float.mant X * 2 ^ (K + 44 + Float.expo X))) by ring.
    rewrite HK, (Z.pow_add_r 2 K 44) by lia.
    change 256 with (2 ^ 8). change (2 ^ 52) with (2 ^ 8 * 2 ^ 44). ring. }
  destruct (round_ratio_exact Float.binary64 n' d' x (- 8)) as [Hmv Hv];
    [done | lia | lia | simpl; lia | done | zmax; lia |].
  set (v := Float.round_ratio Float.binary64 n' d') in *.
  apply (trunc_ratio v x 256); [lia | lia | lia |].
  apply (Z.mul_cancel_r _ _ d'); [lia|].
  transitivity (Float.mant v * 2 ^ Z.max 0 (Float.expo v) * d' * 256); [ring|].
  rewrite Hv. transitivity (n' * 256 * 2 ^ Z.max 0 (- Float.expo v)); [ring|].
  rewrite <- Hnd. ring.
Qed.
End float_facts.

(** ** Pixel conversions *)

Section pixel_lemmas.

Lemma map3_map3 {A B C} (f : A → B) (g : B → C) (a : arr3 A) :
  map3 g (map3 f a) = map3 (λ x, g (f x)) a.
Proof.
  unfold map3. rewrite map_map. apply map_ext; intros r.
  rewrite map_map. apply map_ext; intros c. by rewrite map_map.
Qed.

Lemma map3_ext_all3 {A B} (P : A → Prop) (f g : A → B) (a : arr3 A) :
  (∀ x, P x → f x = g x) → all3 P a → map3 f a = map3 g a.
Proof.
  intros Hfg Ha. unfold map3.
  apply Forall_fmap_ext_1. eapply Forall_impl; [exact Ha|]. intros r Hr.
  apply Forall_fmap_ext_1. eapply Forall_impl; [exact Hr|]. intros c Hc.
  apply Forall_fmap_ext_1. eapply Forall_impl; [exact Hc|]. auto.
Qed.

Lemma map3_id_all3 {A} (P : A → Prop) (f : A → A) (a : arr3 A) :
  (∀ x, P x → f x = x) → all3 P a → map3 f a = a.
Proof.
  intros Hf Ha. rewrite (map3_ext_all3 P f id a Hf Ha).
  unfold map3. rewrite <- (map_id a) at 2.
  apply map_ext; intros r. rewrite <- (map_id r) at 2.
  apply map_ext; intros c. apply map_id.
Qed.

Lemma all3_True {A} (a : arr3 A) : all3 (λ _, True) a.
Proof.
  unfold all3. apply Forall_forall; intros r _.
  apply Forall_forall; intros c _. by apply Forall_forall.
Qed.

(** An exhaustive check over [0 .. n - 1] proves the property on the
    interval. *)
Lemma check_interval (f g : Z → Z) (n : Z) :
  forallb (λ x, f x =? g x) (seqZ 0 n) = true →
  ∀ x, 0 ≤ x < n → f x = g x.
Proof.
  intros Hall x Hx.
  rewrite forallb_forall in Hall.
  apply Z.eqb_eq, Hall, list_elem_of_In, elem_of_seqZ. lia.
Qed.

(** One uint8 sample through [pixels_as_float] and back through
    [pixels_as_ubyte]: binary32 holds [x / 255] closely enough for the
    product with 255 to truncate to [x] again, for each of the 256 bytes. *)
Lemma ubyte_round_trip_exact x :
  in_range uint8 x →
  wrap uint8
    (Float.trunc
       (Float.mul Float.binary32
          (Float.maximum
             (Float.minimum
                (Float.div Float.binary32 (Float.of_Z Float.binary32 x)
                           (Float.mk 255 0))
                (Float.mk 1 0))
             (Float.mk 0 0))
          (Float.mk 255 0)))
  = x.
Proof.
  revert x.
  refine (check_interval
            (λ x, wrap uint8
                    (Float.trunc
                       (Float.mul Float.binary32
                          (Float.maximum
                             (Float.minimum
                                (Float.div Float.binary32
                                   (Float.of_Z Float.binary32 x) (Float.mk 255 0))
                                (Float.mk 1 0))
                             (Float.mk 0 0))
                          (Float.mk 255 0))))
            (λ x, x) (2 ^ bits uint8) _).
  vm_compute. reflexivity.
Qed.

End pixel_lemmas.

(** C7. A uint8 buffer converted to float by [pixels_as_float] and back by
    [pixels_as_ubyte] is the original buffer, byte for byte, for each of the
    256 values. *)
Theorem ubyte_float_ubyte_round_trip (a : arr3 Z) :
  all3 (in_range uint8) a →
  (let* p := pixels_as_float (uint_array uint8 a) in pixels_as_ubyte p)
  = Return (uint_array uint8 a).
Proof.
  intros Ha. simpl. do 2 f_equal.
  unfold float_astype_uint, float_mul_scalar, clip01, float_div_scalar,
    uint_astype_float.
  rewrite !map3_map3.
  apply (map3_id_all3 (in_range uint8)); [|done].
  intros x Hx. exact (ubyte_round_trip_exact x Hx).
Qed.

Lemma ubyte_float_ubyte_round_trip_witness :
  (let* p := pixels_as_float (uint_array uint8 [[[0; 1; 127]; [128; 254; 255]]]) in
   pixels_as_ubyte p)
  = Return (uint_array uint8 [[[0; 1; 127]; [128; 254; 255]]]).
Proof.
  apply ubyte_float_ubyte_round_trip.
  repeat constructor; unfold in_range; simpl; lia.
Defined.

(** C8. On a boolean buffer [pixels_as_uint] returns a uint16 buffer holding
    0 for false and 65535 for true. *)
Theorem pixels_as_uint_bool (a : arr3 bool) :
  pixels_as_uint (bool_array a)
  = Return (uint_array uint16 (map3 (λ b : bool, if b then 65535 else 0) a)).
Proof.
  simpl. do 2 f_equal.
  unfold bool_astype_uint. rewrite map3_map3.
  apply (map3_ext_all3 (λ _, True)); [|apply all3_True].
  by intros [] _.
Qed.

(** C9. On a uint16 buffer [pixels_as_ubyte] yields the truncating quotient
    [x div 256] for each of the 65536 values, although it computes it by a
    float64 true division followed by truncation. *)
Theorem pixels_as_ubyte_uint16 (a : arr3 Z) :
  all3 (in_range uint16) a →
  pixels_as_ubyte (uint_array uint16 a)
  = Return (uint_array uint8 (map3 (λ x, x `div` 256) a)).
Proof.
  intros Ha. simpl. do 2 f_equal.
  unfold float_astype_uint, uint_true_divide. rewrite map3_map3.
  apply (map3_ext_all3 (in_range uint16)); [|done].
  intros x Hx. exact (uint16_to_ubyte_div x Hx).
Qed.

Lemma pixels_as_ubyte_uint16_witness :
  pixels_as_ubyte (uint_array uint16 [[[0; 255; 256]; [257; 65279; 65535]]])
  = Return (uint_array uint8 [[[0; 0; 1]; [1; 254; 255]]]).
Proof.
  apply (pixels_as_ubyte_uint16 [[[0; 255; 256]; [257; 65279; 65535]]]).
  repeat constructor; unfold in_range; simpl; lia.
Defined.

(** ** Flipping *)

(** C10. With [axis = -1] [numpy_flip] does not fail: the pair lookup accepts
    the negative index, and the buffer comes back with the columns of every
    row reversed, exactly as with [axis = 1]. *)
Theorem numpy_flip_minus_one {A} (pixels : arr3 A) :
  numpy_flip pixels (-1) = Return (map reverse pixels)
  ∧ numpy_flip pixels (-1) = numpy_flip pixels 1.
Proof. split; reflexivity. Qed.

(** ** Exif metadata *)

Section exif_lemmas.
Context (H : Host) (evaluation : Evaluation).

#[local] Instance key_le_total : Total key_le.
Proof. intros a b. unfold key_le. lia. Qed.
#[local] Instance key_le_trans : Transitive key_le.
Proof. intros a b c. unfold key_le. lia. Qed.

Lemma sorted_items_Permutation (exif : gmap Z pyval) :
  sorted_items exif ≡ₚ map_to_list exif.
Proof. apply merge_sort_Permutation. Qed.

Lemma elem_of_sorted_items (exif : gmap Z pyval) k v :
  (k, v) ∈ sorted_items exif ↔ exif !! k = Some v.
Proof. by rewrite sorted_items_Permutation, elem_of_map_to_list. Qed.

Lemma strict_of_NoDup (l : list (Z * pyval)) :
  StronglySorted key_le l → NoDup l.*1 → StronglySorted Z.lt l.*1.
Proof.
  induction 1 as [|a l Hl IH Ha]; intros Hnd; simpl; [constructor|].
  apply NoDup_cons in Hnd as [Hnotin Hnd].
  constructor; [by apply IH|].
  apply Forall_fmap, Forall_forall. intros b Hb.
  rewrite Forall_forall in Ha. specialize (Ha b Hb). unfold key_le in Ha.
  simpl. assert (a.1 ≠ b.1); [|lia].
  intros Heq. apply Hnotin. rewrite Heq. by apply list_elem_of_fmap_2.
Qed.

Lemma sorted_items_keys (exif : gmap Z pyval) :
  StronglySorted Z.lt (sorted_items exif).*1.
Proof.
  apply strict_of_NoDup.
  - apply StronglySorted_merge_sort; apply _.
  - rewrite sorted_items_Permutation. apply NoDup_fst_map_to_list.
Qed.

Lemma exif_rule_emits k v rule :
  exif_rule H evaluation (k, v) = Some rule ↔ emits H evaluation k v rule.
Proof.
  unfold exif_rule, emits. simpl. split.
  - destruct (str_truthy _) as [name|]; [|done].
    destruct (exif_encode _ _ _ _) as [[value|]|] eqn:He; [|done..].
    intros [= <-]. by exists name, value.
  - intros (name & value & -> & -> & ->). done.
Qed.

Lemma exif_encode_unsupported name v :
  unsupported v → exif_encode H evaluation name v = Return None.
Proof.
  destruct v as [[|? [|? [|? ?]]]| | | | |]; simpl; done.
Qed.

Lemma exif_step_spec acc kv out :
  exif_step H evaluation acc kv = Return out →
  out = acc ++ option_list (exif_rule H evaluation kv).
Proof.
  destruct kv as [k v]. unfold exif_step, exif_rule. simpl.
  destruct (str_truthy _) as [name|]; simpl.
  - destruct (exif_encode _ _ _ _) as [[value|]|]; simpl; intros [= <-];
      by rewrite ?app_nil_r.
  - intros [= <-]. by rewrite app_nil_r.
Qed.

Lemma exif_loop_spec items acc out :
  exif_loop H evaluation acc items = Return out →
  out = acc ++ omap (exif_rule H evaluation) items.
Proof.
  revert acc. induction items as [|kv items IH]; intros acc; simpl.
  - intros [= <-]. by rewrite app_nil_r.
  - destruct (exif_step _ _ _ _) as [acc'|] eqn:Hstep; simpl; [|done].
    intros Hloop. apply exif_step_spec in Hstep as ->.
    apply IH in Hloop as ->. rewrite <- app_assoc. f_equal.
    by destruct (exif_rule _ _ _).
Qed.

Lemma extract_exif_spec exif exif_options :
  extract_exif H evaluation (image_with exif) = Return (Some (RawExif exif_options)) →
  exif_options = omap (exif_rule H evaluation) (sorted_items exif).
Proof.
  unfold extract_exif, image_with, RawExif. simpl. case_decide; [done|].
  destruct (exif_loop _ _ _ _) as [out|] eqn:Hloop; simpl; [|done].
  intros [= <-]. by apply exif_loop_spec in Hloop.
Qed.

Lemma exif_loop_skip items acc :
  Forall (λ kv, str_truthy (ExifTags H !! kv.1) = None ∨ unsupported kv.2) items →
  exif_loop H evaluation acc items = Return acc.
Proof.
  induction 1 as [|[k v] items Hkv _ IH]; [done|].
  assert (exif_step H evaluation acc (k, v) = Return acc) as Hstep.
  { unfold exif_step. simpl in Hkv. destruct Hkv as [->|Hv]; [done|].
    destruct (str_truthy _); [|done].
    by rewrite exif_encode_unsupported. }
  cbn [exif_loop]. rewrite Hstep. exact IH.
Qed.

End exif_lemmas.

(** C3. When [getexif] raises, [extract_exif] returns [None] and nothing
    propagates; so it does when the image has no [getexif] and when the
    mapping it returns is empty (or is [None]). *)
Theorem extract_exif_no_metadata (H : Host) (evaluation : Evaluation) :
  (∀ e, extract_exif H evaluation {| getexif := Some (Raise e) |} = Return None)
  ∧ extract_exif H evaluation {| getexif := None |} = Return None
  ∧ extract_exif H evaluation (image_with ∅) = Return None
  ∧ extract_exif H evaluation {| getexif := Some (Return ExifNone) |} = Return None.
Proof.
  repeat split; try done.
Qed.

(** C4. A non-empty mapping whose every entry is skipped (the standard
    dictionary has no name for its tag, or its value has an unsupported
    shape) gives the ["RawExif"] rule around an empty list, not [None]. *)
Theorem extract_exif_all_skipped (H : Host) (evaluation : Evaluation)
    (exif : gmap Z pyval) :
  exif ≠ ∅ →
  (∀ k v, exif !! k = Some v →
          str_truthy (ExifTags H !! k) = None ∨ unsupported v) →
  extract_exif H evaluation (image_with exif) = Return (Some (RawExif [])).
Proof.
  intros Hne Hskip. unfold extract_exif, image_with. simpl.
  case_decide; [done|].
  rewrite exif_loop_skip; [done|].
  apply Forall_forall. intros [k v] Hkv.
  apply elem_of_sorted_items in Hkv. simpl. eauto.
Qed.

Lemma extract_exif_all_skipped_witness :
  extract_exif small_host no_evaluation
    (image_with {[ 700 := PyInt 1; 271 := PyOther "float" ]})
  = Return (Some (RawExif [])).
Proof.
  apply extract_exif_all_skipped.
  - apply insert_non_empty.
  - intros k v Hkv.
    apply lookup_insert_Some in Hkv as [[<- <-]|[_ Hkv]]; [by left|].
    apply lookup_singleton_Some in Hkv as [<- <-]. by right.
Defined.

Lemma omap_kept (f : Z * pyval → option Expr) (l : list (Z * pyval)) :
  StronglySorted Z.lt l.*1 →
  ∃ kept,
    StronglySorted Z.lt kept.*1
    ∧ Forall (λ kv, kv ∈ l) kept
    ∧ Forall2 (λ kv rule, f kv = Some rule) kept (omap f l).
Proof.
  induction l as [|a l IH]; simpl; intros Hs.
  - exists []. repeat split; constructor.
  - apply StronglySorted_inv in Hs as [Hs Ha].
    destruct (IH Hs) as (kept & Hk & Hin & Hf).
    assert (Forall (λ kv, kv ∈ a :: l) kept) as Hin'.
    { eapply Forall_impl; [exact Hin|]. intros kv ?. by right. }
    destruct (f a) as [rule|] eqn:Hfa.
    + exists (a :: kept). repeat split.
      * simpl. constructor; [done|].
        apply Forall_fmap. eapply Forall_impl; [exact Hin|].
        intros kv Hkv. simpl.
        rewrite Forall_fmap, Forall_forall in Ha. by apply Ha.
      * constructor; [by left|done].
      * by constructor.
    + by exists kept.
Qed.

(** C5, as the code has it.  A rule is produced exactly for the entries
    the standard dictionary gives a non-empty name and whose value has a
    supported shape; an entry the standard dictionary does not name is
    skipped whatever the overriding table says.  The rule of a kept entry
    carries the overriding name when the table has one, the standard name
    otherwise. *)
Theorem extract_exif_display_names (H : Host) (evaluation : Evaluation)
    (exif : gmap Z pyval) (exif_options : list Expr) :
  extract_exif H evaluation (image_with exif)
    = Return (Some (RawExif exif_options)) →
  ∀ rule, rule ∈ exif_options ↔ ∃ k v, exif !! k = Some v ∧ emits H evaluation k v rule.
Proof.
  intros ->%extract_exif_spec rule.
  rewrite list_elem_of_omap. split.
  - intros ([k v] & Hkv & Hrule). exists k, v.
    by rewrite <- elem_of_sorted_items, <- exif_rule_emits.
  - intros (k & v & Hkv & Hrule). exists (k, v).
    by rewrite elem_of_sorted_items, exif_rule_emits.
Qed.

Lemma extract_exif_display_names_witness :
  Expression SymbolRule [MString "PixelXDimension"; Integer 640]
  ∈ [Expression SymbolRule [MString "Make"; MString "ACME"];
     Expression SymbolRule [MString "PixelXDimension"; Integer 640]]
  ↔ ∃ k v,
      ({[ 40962 := PyInt 640; 271 := PyStr "ACME"; 37385 := PyInt 1 ]} : gmap Z pyval) !! k = Some v
      ∧ emits small_host no_evaluation k v
          (Expression SymbolRule [MString "PixelXDimension"; Integer 640]).
Proof.
  apply (extract_exif_display_names small_host no_evaluation
           {[ 40962 := PyInt 640; 271 := PyStr "ACME"; 37385 := PyInt 1 ]}).
  vm_compute. reflexivity.
Defined.

(** C5 as stated fails: tag 37385 is in the overriding table, the standard
    dictionary (empty, as when Pillow is missing) does not name it, and
    the entry is skipped, not emitted. *)
Lemma override_only_entry_is_skipped :
  Exif_names !! 37385 = Some "FlashInfo"
  ∧ ExifTags no_pillow !! 37385 = None
  ∧ extract_exif no_pillow no_evaluation (image_with {[ 37385 := PyInt 1 ]})
    = Return (Some (RawExif [])).
Proof. repeat split; vm_compute; reflexivity. Qed.

(** C6. The rules [extract_exif] produces are those of a sub-sequence of
    the mapping's entries whose tag ids are strictly ascending, in that
    order. *)
Theorem extract_exif_ascending (H : Host) (evaluation : Evaluation)
    (exif : gmap Z pyval) (exif_options : list Expr) :
  extract_exif H evaluation (image_with exif)
    = Return (Some (RawExif exif_options)) →
  ∃ kept : list (Z * pyval),
    StronglySorted Z.lt kept.*1
    ∧ Forall2 (λ kv rule, exif !! kv.1 = Some kv.2
                          ∧ emits H evaluation kv.1 kv.2 rule)
        kept exif_options.
Proof.
  intros ->%extract_exif_spec.
  destruct (omap_kept (exif_rule H evaluation) (sorted_items exif)
              (sorted_items_keys exif)) as (kept & Hs & Hin & Hf).
  exists kept. split; [done|]. clear Hs.
  revert Hin. induction Hf as [|[k v] rule kept opts Hrule _ IH];
    intros Hin; [constructor|].
  apply Forall_cons in Hin as [Hkv Hin].
  constructor; [|by apply IH]. simpl. split.
  - by apply elem_of_sorted_items.
  - by apply exif_rule_emits.
Qed.

Lemma extract_exif_ascending_witness :
  ∃ kept : list (Z * pyval),
    StronglySorted Z.lt kept.*1
    ∧ Forall2 (λ kv rule,
                 ({[ 40962 := PyInt 640; 271 := PyStr "ACME";
                     37386 := PyTuple [PyInt 505; PyInt 10] ]} : gmap Z pyval)
                   !! kv.1 = Some kv.2
                 ∧ emits small_host no_evaluation kv.1 kv.2 rule)
        kept
        [Expression SymbolRule [MString "Make"; MString "ACME"];
         Expression SymbolRule [MString "FocalLength"; HostAtom "Rational(505, 10)"];
         Expression SymbolRule [MString "PixelXDimension"; Integer 640]].
Proof.
  apply (extract_exif_ascending small_host no_evaluation).
  vm_compute. reflexivity.
Defined.

(** ** Convolution *)

Section convolve_lemmas.

Ltac zbool :=
  repeat (simpl; match goal with
    | |- context [?a <? ?b] =>
        first [rewrite (proj2 (Z.ltb_lt a b)) by lia
              | rewrite (proj2 (Z.ltb_ge a b)) by lia]
    | |- context [?a =? ?b] =>
        first [rewrite (proj2 (Z.eqb_eq a b)) by lia
              | rewrite (proj2 (Z.eqb_neq a b)) by lia]
    | |- context [?a <=? ?b] =>
        first [rewrite (proj2 (Z.leb_le a b)) by lia
              | rewrite (proj2 (Z.leb_gt a b)) by lia]
    end); simpl.

Lemma half_odd p : 0 ≤ p → (2 * p + 1) `div` 2 = p.
Proof. intros. symmetry. apply (Z.div_unique _ 2 p 1); lia. Qed.

Lemma half_even p : (2 * p) `div` 2 = p.
Proof. symmetry. apply (Z.div_unique _ 2 p 0); lia. Qed.

(** Padding a line by [p] on both sides. *)
Lemma pad_edge_shape1 a n p :
  Nd.shape a = [n] → 1 ≤ n → 0 ≤ p →
  ∃ a', Nd.pad_edge a [p] = Return a' ∧ Nd.shape a' = [n + p + p].
Proof.
  intros Hs Hn Hp. unfold Nd.pad_edge, Nd.as_pairs, Nd.ndim. rewrite Hs.
  zbool. eexists. split; [reflexivity|]. done.
Qed.

(** Padding a plane: the two numbers are (before, after) for both axes. *)
Lemma pad_edge_shape2 a n k p q :
  Nd.shape a = [n; k] → 1 ≤ n → 1 ≤ k → 0 ≤ p → 0 ≤ q →
  ∃ a', Nd.pad_edge a [p; q] = Return a'
        ∧ Nd.shape a' = [n + p + q; k + p + q].
Proof.
  intros Hs Hn Hk Hp Hq. unfold Nd.pad_edge, Nd.as_pairs, Nd.ndim. rewrite Hs.
  zbool. eexists. split; [reflexivity|]. done.
Qed.

Lemma forallb_pos s : Forall (λ n, 1 ≤ n) s → forallb (λ n, 1 <=? n) s = true.
Proof.
  induction 1 as [|n s Hn _ IH]; simpl; [done|].
  rewrite IH. by apply andb_true_intro, conj; [apply Z.leb_le|].
Qed.

Lemma fft_convolve_shape a b s :
  s ≠ [] → length (Nd.shape a) = length s → length (Nd.shape b) = length s →
  Forall (λ n, 1 ≤ n) s →
  ∃ ret, Nd.fft_convolve a b s = Return ret ∧ Nd.shape ret = s.
Proof.
  intros Hne Ha Hb Hpos. unfold Nd.fft_convolve, Nd.fft_args_ok, Nd.ndim.
  rewrite Ha, Hb, forallb_pos by done.
  rewrite (bool_decide_eq_false_2 _ Hne).
  rewrite !bool_decide_eq_true_2 by done. simpl.
  eexists. split; [reflexivity|]. done.
Qed.

(** [a[p:-p]] along one axis of length [n]: [n - 2 p] samples are left
    when [p] is positive, none when [p] is zero. *)
Lemma getitem_crop1 a n p :
  Nd.shape a = [n] → 0 ≤ p → 2 * p ≤ n →
  ∃ out, Nd.getitem a [(p, - p)] = Return out
         ∧ Nd.shape out = [if decide (p = 0) then 0 else n - 2 * p].
Proof.
  intros Hs Hp Hn. unfold Nd.getitem, Nd.ndim. rewrite Hs. simpl.
  eexists. split; [reflexivity|]. simpl.
  case_decide; [subst p; simpl|zbool]; f_equal; lia.
Qed.

Lemma getitem_crop2 a n k p q :
  Nd.shape a = [n; k] → 0 ≤ p → 2 * p ≤ n → 0 ≤ q → 2 * q ≤ k →
  ∃ out, Nd.getitem a [(p, - p); (q, - q)] = Return out
         ∧ Nd.shape out = [if decide (p = 0) then 0 else n - 2 * p;
                           if decide (q = 0) then 0 else k - 2 * q].
Proof.
  intros Hs Hp Hn Hq Hk. unfold Nd.getitem, Nd.ndim. rewrite Hs. simpl.
  eexists. split; [reflexivity|]. simpl.
  repeat case_decide; subst; zbool; repeat f_equal; lia.
Qed.

End convolve_lemmas.


(** C1, as the code has it.  For a one- or two-dimensional signal with
    no empty dimension and a kernel of as many dimensions, all of one odd
    size [m >= 3], [convolve] with padding returns an array of exactly the
    signal's shape. *)
Theorem convolve_fixed_same_shape (in1 in2 : Nd.array) (m : Z) :
  (Nd.ndim in1 = 1 ∨ Nd.ndim in1 = 2)%nat →
  Forall (λ n, 1 ≤ n) (Nd.shape in1) →
  Nd.shape in2 = replicate (Nd.ndim in1) m →
  Z.odd m = true → 3 ≤ m →
  ∃ out, convolve in1 in2 true = Return out ∧ Nd.shape out = Nd.shape in1.
Proof.
  intros Hnd Hpos Hk Hodd Hm.
  destruct (Zodd_ex m) as [p Hp]; [by apply Zodd_bool_iff|].
  subst m. assert (1 ≤ p) by lia.
  unfold convolve. rewrite Hk. unfold Nd.ndim in *.
  destruct (Nd.shape in1) as [|n [|k [|]]] eqn:Hs; destruct Hnd as [Hnd|Hnd];
    try done; simpl; rewrite !half_odd by lia.
  - apply Forall_cons in Hpos as [Hn _].
    destruct (pad_edge_shape1 in1 n p) as (in1' & -> & Hs'); [done|lia|lia|].
    cbn [bind]. rewrite Hs'. unfold Nd.broadcast2 at 1. simpl.
    destruct (fft_convolve_shape in1' in2 [n + p + p + (2 * p + 1) - 1])
      as (ret & -> & Hret); [done|by rewrite Hs'|by rewrite Hk| |].
    { repeat constructor. lia. }
    cbn [bind]. rewrite Hret. unfold Nd.broadcast2. simpl.
    replace ((n + p + p + (2 * p + 1) - 1 - (n + p + p)) `div` 2 + p)
      with (2 * p).
    2:{ replace (n + p + p + (2 * p + 1) - 1 - (n + p + p)) with (2 * p) by lia.
        rewrite half_even. lia. }
    destruct (getitem_crop1 ret (n + p + p + (2 * p + 1) - 1) (2 * p))
      as (out & -> & Hout); [done|lia|lia|].
    exists out. split; [done|]. rewrite Hout. case_decide; f_equal; lia.
  - apply Forall_cons in Hpos as [Hn Hpos]. apply Forall_cons in Hpos as [Hk' _].
    destruct (pad_edge_shape2 in1 n k p p) as (in1' & -> & Hs'); [done|lia..|].
    cbn [bind]. rewrite Hs'. unfold Nd.broadcast2 at 1. simpl.
    destruct (fft_convolve_shape in1' in2
                [n + p + p + (2 * p + 1) - 1; k + p + p + (2 * p + 1) - 1])
      as (ret & -> & Hret); [done|by rewrite Hs'|by rewrite Hk| |].
    { repeat constructor; lia. }
    cbn [bind]. rewrite Hret. unfold Nd.broadcast2. simpl.
    replace ((n + p + p + (2 * p + 1) - 1 - (n + p + p)) `div` 2 + p)
      with (2 * p).
    2:{ replace (n + p + p + (2 * p + 1) - 1 - (n + p + p)) with (2 * p) by lia.
        rewrite half_even. lia. }
    replace ((k + p + p + (2 * p + 1) - 1 - (k + p + p)) `div` 2 + p)
      with (2 * p).
    2:{ replace (k + p + p + (2 * p + 1) - 1 - (k + p + p)) with (2 * p) by lia.
        rewrite half_even. lia. }
    destruct (getitem_crop2 ret (n + p + p + (2 * p + 1) - 1)
                (k + p + p + (2 * p + 1) - 1) (2 * p) (2 * p))
      as (out & -> & Hout); [done|lia..|].
    exists out. split; [done|]. rewrite Hout.
    repeat case_decide; repeat f_equal; lia.
Qed.


Lemma convolve_fixed_same_shape_witness :
  ∃ out,
    convolve (Nd.of_rows [[1; 2; 3; 4]; [5; 6; 7; 8]]%Q)
             (Nd.of_rows [[0; 0; 0]; [0; 1; 0]; [0; 0; 0]]%Q) true = Return out
    ∧ Nd.shape out = [2; 4].
Proof.
  apply (convolve_fixed_same_shape
           (Nd.of_rows [[1; 2; 3; 4]; [5; 6; 7; 8]]%Q)
           (Nd.of_rows [[0; 0; 0]; [0; 1; 0]; [0; 0; 0]]%Q) 3).
  - right. reflexivity.
  - repeat constructor; simpl; lia.
  - reflexivity.
  - reflexivity.
  - lia.
Defined.

(** C1 as stated fails: a kernel of two rows and two columns has as many
    dimensions as the signal and fits in the padded signal, and the result
    is one sample larger than the signal along each axis. *)
Lemma convolve_even_kernel_grows :
  Nd.shape (Nd.of_rows [[1; 2; 3]; [4; 5; 6]; [7; 8; 9]]%Q) = [3; 3]
  ∧ Nd.shape (Nd.of_rows [[1; 1]; [1; 1]]%Q) = [2; 2]
  ∧ shape_of (convolve (Nd.of_rows [[1; 2; 3]; [4; 5; 6]; [7; 8; 9]]%Q)
                       (Nd.of_rows [[1; 1]; [1; 1]]%Q) true)
    = Return [4; 4].
Proof. repeat split; vm_compute; reflexivity. Qed.

(** C2, as the code behaves.  With a kernel of one sample per axis the
    crop is [ret[0:-0]], which Python reads as [ret[0:0]]: for a one- or
    two-dimensional signal with no empty dimension the result is empty,
    with and without padding, whatever the kernel's value. *)
Theorem convolve_unit_kernel_empty (in1 in2 : Nd.array) (fixed : bool) :
  (Nd.ndim in1 = 1 ∨ Nd.ndim in1 = 2)%nat →
  Forall (λ n, 1 ≤ n) (Nd.shape in1) →
  Nd.shape in2 = replicate (Nd.ndim in1) 1 →
  ∃ out, convolve in1 in2 fixed = Return out
         ∧ Nd.shape out = replicate (Nd.ndim in1) 0
         ∧ Nd.ravel out = [].
Proof.
  intros Hnd Hpos Hk.
  unfold convolve. rewrite Hk. unfold Nd.ndim in *.
  destruct (Nd.shape in1) as [|n [|k [|]]] eqn:Hs; destruct Hnd as [Hnd|Hnd];
    try done; simpl.
  - apply Forall_cons in Hpos as [Hn _].
    change (1 `div` 2) with 0.
    assert (∃ in1', (if fixed then Nd.pad_edge in1 [0] else Return in1)
                    = Return in1' ∧ Nd.shape in1' = [n]) as (in1' & -> & Hs').
    { destruct fixed; [|by eauto].
      destruct (pad_edge_shape1 in1 n 0) as (in1' & -> & Hs'); [done|lia|lia|].
      exists in1'. split; [done|]. rewrite Hs'. f_equal; lia. }
    cbn [bind]. rewrite Hs'. unfold Nd.broadcast2 at 1. simpl.
    destruct (fft_convolve_shape in1' in2 [n + 1 - 1])
      as (ret & -> & Hret); [done|by rewrite Hs'|by rewrite Hk| |].
    { repeat constructor. lia. }
    cbn [bind]. rewrite Hret. unfold Nd.broadcast2. simpl.
    replace (n + 1 - 1 - n) with 0 by lia. change (0 `div` 2 + 0) with 0.
    destruct (getitem_crop1 ret (n + 1 - 1) 0)
      as (out & Hget & Hout); [done|lia|lia|].
    rewrite Hget.
    exists out. split; [done|]. unfold Nd.ravel. rewrite Hout. done.
  - apply Forall_cons in Hpos as [Hn Hpos]. apply Forall_cons in Hpos as [Hk' _].
    change (1 `div` 2) with 0.
    assert (∃ in1', (if fixed then Nd.pad_edge in1 [0; 0] else Return in1)
                    = Return in1' ∧ Nd.shape in1' = [n; k]) as (in1' & -> & Hs').
    { destruct fixed; [|by eauto].
      destruct (pad_edge_shape2 in1 n k 0 0) as (in1' & -> & Hs'); [done|lia..|].
      exists in1'. split; [done|]. rewrite Hs'. repeat f_equal; lia. }
    cbn [bind]. rewrite Hs'. unfold Nd.broadcast2 at 1. simpl.
    destruct (fft_convolve_shape in1' in2 [n + 1 - 1; k + 1 - 1])
      as (ret & -> & Hret); [done|by rewrite Hs'|by rewrite Hk| |].
    { repeat constructor; lia. }
    cbn [bind]. rewrite Hret. unfold Nd.broadcast2. simpl.
    replace (n + 1 - 1 - n) with 0 by lia.
    replace (k + 1 - 1 - k) with 0 by lia. change (0 `div` 2 + 0) with 0.
    destruct (getitem_crop2 ret (n + 1 - 1) (k + 1 - 1) 0 0)
      as (out & Hget & Hout); [done|lia..|].
    rewrite Hget.
    exists out. split; [done|]. unfold Nd.ravel. rewrite Hout. done.
Qed.

Lemma convolve_unit_kernel_empty_witness :
  ∃ out,
    convolve (Nd.of_rows [[5; 6]; [7; 8]]%Q) (Nd.of_rows [[1]]%Q) false = Return out
    ∧ Nd.shape out = [0; 0]
    ∧ Nd.ravel out = [].
Proof.
  apply (convolve_unit_kernel_empty
           (Nd.of_rows [[5; 6]; [7; 8]]%Q) (Nd.of_rows [[1]]%Q) false).
  - right. reflexivity.
  - repeat constructor; simpl; lia.
  - reflexivity.
Defined.

(** * Further properties of the code *)

(** ** Pixel format conversions *)

Lemma all3_map3 {A B} (P : B → Prop) (f : A → B) (a : arr3 A) :
  (∀ x, P (f x)) → all3 P (map3 f a).
Proof.
  intros Hf. unfold all3, map3.
  apply Forall_fmap, Forall_forall; intros r _.
  apply Forall_fmap, Forall_forall; intros c _.
  apply Forall_fmap, Forall_forall; intros x _. apply Hf.
Qed.

Lemma in_range_wrap d z : in_range d (wrap d z).
Proof.
  unfold in_range, wrap. apply Z.mod_pos_bound.
  destruct d; reflexivity.
Qed.

Lemma map3_inj_all3 {A B} (P : A → Prop) (f : A → B) (a b : arr3 A) :
  (∀ x y, P x → P y → f x = f y → x = y) →
  all3 P a → all3 P b → map3 f a = map3 f b → a = b.
Proof.
  intros Hinj. unfold all3, map3. revert b.
  induction a as [|r a IHa]; intros [|r' b] Ha Hb Heq; try done.
  apply Forall_cons in Ha as [Hr Ha]. apply Forall_cons in Hb as [Hr' Hb].
  injection Heq as Hrr Hab. f_equal; [|by apply IHa].
  clear IHa Ha Hb Hab. revert r' Hr' Hrr.
  induction r as [|c r IHr]; intros [|c' r'] Hr' Heq; try done.
  apply Forall_cons in Hr as [Hc Hr]. apply Forall_cons in Hr' as [Hc' Hr'].
  injection Heq as Hcc Hrr. f_equal; [|by apply IHr].
  clear IHr Hr Hr' Hrr. revert c' Hc' Hcc.
  induction c as [|x c IHc]; intros [|x' c'] Hc' Heq; try done.
  apply Forall_cons in Hc as [Hx Hc]. apply Forall_cons in Hc' as [Hx' Hc'].
  injection Heq as Hxx Hcc. f_equal; [by apply Hinj|by apply IHc].
Qed.

(** The three conversions succeed on the float, uint8, uint16 and boolean
    dtypes, and raise [NotImplementedError], nothing else, on every other
    dtype, the wider unsigned integers included. *)
Theorem conversions_supported (pixels : ndarray) :
  if supported pixels then
    (∃ q, pixels_as_float pixels = Return q)
    ∧ (∃ q, pixels_as_ubyte pixels = Return q)
    ∧ (∃ q, pixels_as_uint pixels = Return q)
  else
    pixels_as_float pixels = Raise NotImplementedError
    ∧ pixels_as_ubyte pixels = Raise NotImplementedError
    ∧ pixels_as_uint pixels = Raise NotImplementedError.
Proof.
  destruct pixels as [f a|[] a|a|name]; simpl; eauto 10.
Qed.

(** Whatever the supported dtype of its argument, [pixels_as_ubyte]
    returns a uint8 array whose samples are bytes. *)
Theorem pixels_as_ubyte_dtype (pixels q : ndarray) :
  well_formed pixels →
  pixels_as_ubyte pixels = Return q →
  ∃ a, q = uint_array uint8 a ∧ all3 (in_range uint8) a.
Proof.
  intros Hwf. destruct pixels as [f a|[] a|a|name]; simpl; intros [= <-];
    eexists; (split; [reflexivity|]); try done;
    unfold float_astype_uint, uint_true_divide; try rewrite map3_map3;
    apply all3_map3; intros x; apply in_range_wrap.
Qed.

Lemma pixels_as_ubyte_dtype_witness :
  ∃ a, uint_array uint8 [[[0; 255]]] = uint_array uint8 a
       ∧ all3 (in_range uint8) a.
Proof.
  apply (pixels_as_ubyte_dtype (bool_array [[[false; true]]])).
  - exact I.
  - reflexivity.
Defined.

(** Whatever the supported dtype of its argument, [pixels_as_uint] returns
    a uint16 array whose samples are in range. *)
Theorem pixels_as_uint_dtype (pixels q : ndarray) :
  well_formed pixels →
  pixels_as_uint pixels = Return q →
  ∃ a, q = uint_array uint16 a ∧ all3 (in_range uint16) a.
Proof.
  intros Hwf. destruct pixels as [f a|[] a|a|name]; simpl; intros [= <-];
    eexists; (split; [reflexivity|]); try done;
    unfold float_astype_uint, uint_astype, bool_astype_uint;
    try rewrite map3_map3;
    apply all3_map3; intros x; apply in_range_wrap.
Qed.

Lemma pixels_as_uint_dtype_witness :
  ∃ a, uint_array uint16 [[[0; 65280]]] = uint_array uint16 a
       ∧ all3 (in_range uint16) a.
Proof.
  apply (pixels_as_uint_dtype (uint_array uint8 [[[0; 255]]])).
  - repeat constructor; unfold in_range; simpl; lia.
  - reflexivity.
Defined.

(** Each conversion is idempotent: applied to its own result it returns
    that result unchanged. *)
Theorem conversions_idempotent (pixels : ndarray) :
  (let* q := pixels_as_float pixels in pixels_as_float q)
  = pixels_as_float pixels
  ∧ (let* q := pixels_as_ubyte pixels in pixels_as_ubyte q)
    = pixels_as_ubyte pixels
  ∧ (let* q := pixels_as_uint pixels in pixels_as_uint q)
    = pixels_as_uint pixels.
Proof.
  by destruct pixels as [f a|[] a|a|name].
Qed.

(** On a uint8 buffer [pixels_as_uint] multiplies every sample by 256; the
    product is computed in uint16 and never wraps. *)
Theorem pixels_as_uint_ubyte (a : arr3 Z) :
  all3 (in_range uint8) a →
  pixels_as_uint (uint_array uint8 a)
  = Return (uint_array uint16 (map3 (λ x, 256 * x) a)).
Proof.
  intros Ha. simpl. do 2 f_equal. unfold uint_astype. rewrite map3_map3.
  apply (map3_ext_all3 (in_range uint8)); [|done].
  intros x Hx. unfold in_range, wrap in *. simpl in *.
  rewrite (Z.mod_small x) by lia. rewrite Z.mod_small; lia.
Qed.

Lemma pixels_as_uint_ubyte_witness :
  pixels_as_uint (uint_array uint8 [[[0; 1; 255]]])
  = Return (uint_array uint16 [[[0; 256; 65280]]]).
Proof.
  apply (pixels_as_uint_ubyte [[[0; 1; 255]]]).
  repeat constructor; unfold in_range; simpl; lia.
Defined.

(** A uint8 buffer widened by [pixels_as_uint] and narrowed again by
    [pixels_as_ubyte] is the original buffer. *)
Theorem ubyte_uint_ubyte_round_trip (a : arr3 Z) :
  all3 (in_range uint8) a →
  (let* p := pixels_as_uint (uint_array uint8 a) in pixels_as_ubyte p)
  = Return (uint_array uint8 a).
Proof.
  intros Ha. simpl. do 2 f_equal.
  unfold float_astype_uint, uint_true_divide, uint_astype.
  rewrite !map3_map3.
  apply (map3_id_all3 (in_range uint8)); [|done].
  intros x Hx. unfold in_range in Hx. simpl in Hx.
  change (promote_types uint16 (min_scalar_type 256)) with uint16.
  assert (wrap uint16 (wrap uint16 x * 256) = 256 * x) as ->.
  { unfold wrap. simpl. rewrite (Z.mod_small x) by lia.
    rewrite Z.mod_small; lia. }
  rewrite uint16_to_ubyte_div.
  - rewrite Z.mul_comm. apply Z.div_mul. lia.
  - unfold in_range. simpl. lia.
Qed.

Lemma ubyte_uint_ubyte_round_trip_witness :
  (let* p := pixels_as_uint (uint_array uint8 [[[0; 7; 255]]]) in
   pixels_as_ubyte p)
  = Return (uint_array uint8 [[[0; 7; 255]]]).
Proof.
  apply (ubyte_uint_ubyte_round_trip [[[0; 7; 255]]]).
  repeat constructor; unfold in_range; simpl; lia.
Defined.

(** [pixels_as_float] loses nothing on uint8 buffers: two buffers with the
    same float image are equal. *)
Theorem pixels_as_float_ubyte_injective (a b : arr3 Z) :
  all3 (in_range uint8) a → all3 (in_range uint8) b →
  pixels_as_float (uint_array uint8 a) = pixels_as_float (uint_array uint8 b) →
  a = b.
Proof.
  intros Ha Hb. simpl. intros [= Heq].
  unfold float_div_scalar, uint_astype_float in Heq.
  rewrite !map3_map3 in Heq.
  eapply (map3_inj_all3 (in_range uint8)); [|done|done|exact Heq].
  intros x y Hx Hy Hxy. simpl in Hxy.
  rewrite <- (ubyte_round_trip_exact x Hx), <- (ubyte_round_trip_exact y Hy).
  change (float_format float32) with Float.binary32 in Hxy.
  by rewrite Hxy.
Qed.

Lemma pixels_as_float_ubyte_injective_witness :
  ([[[3; 200]]] : arr3 Z) = [[[3; 200]]].
Proof.
  apply pixels_as_float_ubyte_injective.
  - repeat constructor; unfold in_range; simpl; lia.
  - repeat constructor; unfold in_range; simpl; lia.
  - reflexivity.
Defined.

(** A boolean buffer taken to float and then to bytes, or to uint16, is
    what the direct conversion gives: 0 and 255, or 0 and 65535. *)
Theorem bool_through_float (a : arr3 bool) :
  (let* p := pixels_as_float (bool_array a) in pixels_as_ubyte p)
  = pixels_as_ubyte (bool_array a)
  ∧ (let* p := pixels_as_float (bool_array a) in pixels_as_uint p)
    = pixels_as_uint (bool_array a).
Proof.
  split; simpl; do 2 f_equal;
    unfold float_astype_uint, float_mul_scalar, clip01, bool_astype_float,
      bool_astype_uint;
    rewrite !map3_map3;
    (apply (map3_ext_all3 (λ _, True)); [|apply all3_True]);
    intros [] _; vm_compute; reflexivity.
Qed.

Lemma leb_nonpos_one x :
  Float.leb x (Float.mk 0 0) = true → Float.leb x (Float.mk 1 0) = true.
Proof.
  unfold Float.leb. simpl. rewrite Z.shiftl_0_l.
  intros Hx%Z.leb_le. apply Z.leb_le.
  rewrite Z.shiftl_mul_pow2 in Hx by lia.
  rewrite !Z.shiftl_mul_pow2 by lia.
  assert (0 < 2 ^ (0 - Float.expo x `min` 0)) by (apply Z.pow_pos_nonneg; lia).
  lia.
Qed.

(** Float samples above 1.0 saturate: they become 255 in
    [pixels_as_ubyte] and 65535 in [pixels_as_uint], in either float
    dtype; nothing wraps around. *)
Theorem float_above_one_saturates (f : float_dtype) (a : arr3 Float.t) :
  all3 (λ x, Float.leb x (Float.mk 1 0) = false) a →
  pixels_as_ubyte (float_array f a)
  = Return (uint_array uint8 (map3 (λ _, 255) a))
  ∧ pixels_as_uint (float_array f a)
    = Return (uint_array uint16 (map3 (λ _, 65535) a)).
Proof.
  intros Ha. split; simpl; do 2 f_equal;
    unfold float_astype_uint, float_mul_scalar, clip01; rewrite !map3_map3;
    (eapply map3_ext_all3; [|exact Ha]); intros x Hx; simpl;
    unfold Float.minimum; rewrite Hx; destruct f; vm_compute; reflexivity.
Qed.

Lemma float_above_one_saturates_witness :
  pixels_as_ubyte (float_array float32 [[[Float.mk 3 0; Float.mk 5 (-2)]]])
  = Return (uint_array uint8 [[[255; 255]]])
  ∧ pixels_as_uint (float_array float32 [[[Float.mk 3 0; Float.mk 5 (-2)]]])
    = Return (uint_array uint16 [[[65535; 65535]]]).
Proof.
  apply (float_above_one_saturates float32 [[[Float.mk 3 0; Float.mk 5 (-2)]]]).
  repeat constructor.
Defined.

(** Float samples that are zero or negative become 0 in [pixels_as_ubyte]
    and in [pixels_as_uint]. *)
Theorem float_below_zero_saturates (f : float_dtype) (a : arr3 Float.t) :
  all3 (λ x, Float.leb x (Float.mk 0 0) = true) a →
  pixels_as_ubyte (float_array f a)
  = Return (uint_array uint8 (map3 (λ _, 0) a))
  ∧ pixels_as_uint (float_array f a)
    = Return (uint_array uint16 (map3 (λ _, 0) a)).
Proof.
  intros Ha. split; simpl; do 2 f_equal;
    unfold float_astype_uint, float_mul_scalar, clip01; rewrite !map3_map3;
    (eapply map3_ext_all3; [|exact Ha]); intros x Hx; simpl;
    unfold Float.minimum, Float.maximum;
    rewrite (leb_nonpos_one x Hx), Hx; destruct f; vm_compute; reflexivity.
Qed.

Lemma float_below_zero_saturates_witness :
  pixels_as_ubyte (float_array float64 [[[Float.mk (-3) 0; Float.mk 0 5]]])
  = Return (uint_array uint8 [[[0; 0]]])
  ∧ pixels_as_uint (float_array float64 [[[Float.mk (-3) 0; Float.mk 0 5]]])
    = Return (uint_array uint16 [[[0; 0]]]).
Proof.
  apply (float_below_zero_saturates float64 [[[Float.mk (-3) 0; Float.mk 0 5]]]).
  repeat constructor.
Defined.

(** ** Flipping *)

(** [numpy_flip] raises [IndexError] exactly when the axis is outside
    [-2 .. 1]; it raises nothing else. *)
Theorem numpy_flip_raises {A} (pixels : arr3 A) (axis : Z) (e : exn) :
  numpy_flip pixels axis = Raise e ↔ e = IndexError ∧ (axis < -2 ∨ 2 ≤ axis).
Proof.
  unfold numpy_flip, tuple2_get.
  destruct (Z.ltb_spec axis (-2)), (Z.leb_spec 2 axis); simpl;
    split; try (intros [= <-]; split; [done|lia]); try (by intros [-> _]);
    try done; intros [_ ?]; lia.
Qed.

(** Flipping twice along the same axis gives the buffer back. *)
Theorem numpy_flip_involutive {A} (pixels : arr3 A) (axis : Z) :
  -2 ≤ axis < 2 →
  (let* p := numpy_flip pixels axis in numpy_flip p axis) = Return pixels.
Proof.
  intros Haxis. unfold numpy_flip, tuple2_get.
  destruct (Z.ltb_spec axis (-2)), (Z.leb_spec 2 axis); try lia. simpl.
  destruct (_ =? 0); simpl; f_equal; unfold flipud, fliplr.
  - apply reverse_involutive.
  - rewrite map_map. rewrite <- (map_id pixels) at 2.
    apply map_ext; intros r. apply reverse_involutive.
Qed.

Lemma numpy_flip_involutive_witness :
  (let* p := numpy_flip [[[1]; [2]]; [[3]; [4]]] (-2) in numpy_flip p (-2))
  = Return [[[1]; [2]]; [[3]; [4]]].
Proof. apply numpy_flip_involutive. lia. Defined.

(** Flips along the two axes commute. *)
Theorem numpy_flip_commute {A} (pixels : arr3 A) :
  (let* p := numpy_flip pixels 0 in numpy_flip p 1)
  = (let* p := numpy_flip pixels 1 in numpy_flip p 0).
Proof.
  simpl. apply (f_equal Return). unfold flipud, fliplr.
  exact (fmap_reverse reverse pixels).
Qed.

(** A flip along axis 0 moves row [i] to row [h - 1 - i] and leaves every
    row as it is; a flip along axis 1 keeps the rows in place and reverses
    the pixels of each. *)
Theorem numpy_flip_rows {A} (pixels : arr3 A) (i : nat) :
  (i < length pixels)%nat →
  (∃ p, numpy_flip pixels 0 = Return p
        ∧ length p = length pixels
        ∧ p !! i = pixels !! (length pixels - S i)%nat)
  ∧ (∃ p, numpy_flip pixels 1 = Return p
          ∧ length p = length pixels
          ∧ p !! i = reverse <$> pixels !! i).
Proof.
  intros Hi. split; eexists; (split; [reflexivity|]); unfold flipud, fliplr.
  - split; [apply length_reverse|]. by apply reverse_lookup.
  - split; [apply length_map|]. apply list_lookup_fmap.
Qed.

Lemma numpy_flip_rows_witness :
  (∃ p, numpy_flip [[[1; 2]; [3; 4]]; [[5; 6]; [7; 8]]] 0 = Return p
        ∧ length p = 2%nat
        ∧ p !! 0%nat = Some [[5; 6]; [7; 8]])
  ∧ (∃ p, numpy_flip [[[1; 2]; [3; 4]]; [[5; 6]; [7; 8]]] 1 = Return p
          ∧ length p = 2%nat
          ∧ p !! 0%nat = Some [[3; 4]; [1; 2]]).
Proof.
  apply (numpy_flip_rows [[[1; 2]; [3; 4]]; [[5; 6]; [7; 8]]] 0).
  simpl. lia.
Defined.

(** ** Exif metadata: failures, size, and what the result depends on *)

Section exif_more.
Context (H : Host) (evaluation : Evaluation).

Lemma exif_encode_no_rational name v :
  (∀ a b, v ≠ PyTuple [a; b]) →
  ∃ r, exif_encode H evaluation name v = Return r.
Proof.
  intros Hv. destruct v as [[|a [|b [|? ?]]]| | | | |]; simpl; eauto.
  by destruct (Hv a b).
Qed.

Lemma exif_step_no_rational acc kv :
  (∀ a b, kv.2 ≠ PyTuple [a; b]) →
  ∃ acc', exif_step H evaluation acc kv = Return acc'.
Proof.
  destruct kv as [k v]. simpl. intros Hv. unfold exif_step.
  destruct (str_truthy _) as [name|]; [|by eauto].
  destruct (exif_encode_no_rational name v Hv) as [[value|] ->]; simpl; eauto.
Qed.

Lemma exif_loop_no_rational items acc :
  Forall (λ kv, ∀ a b, kv.2 ≠ PyTuple [a; b]) items →
  ∃ out, exif_loop H evaluation acc items = Return out.
Proof.
  intros Hitems. revert acc.
  induction Hitems as [|kv items Hkv _ IH]; intros acc; [by eexists|].
  cbn [exif_loop].
  destruct (exif_step_no_rational acc kv Hkv) as [acc' ->]. apply IH.
Qed.

Lemma exif_loop_raises items acc k a b name e :
  (k, PyTuple [a; b]) ∈ items →
  str_truthy (ExifTags H !! k) = Some name →
  Rational H a b = Raise e →
  ∃ e', exif_loop H evaluation acc items = Raise e'.
Proof.
  intros Hin Hname Hrat. revert acc.
  induction items as [|kv items IH]; intros acc; [by apply elem_of_nil in Hin|].
  cbn [exif_loop].
  apply elem_of_cons in Hin as [<-|Hin].
  - unfold exif_step. rewrite Hname. simpl. rewrite Hrat. simpl. by eexists.
  - destruct (exif_step _ _ _ _) as [acc'|e']; simpl; [by apply IH|by eexists].
Qed.

Lemma length_omap_le {A B} (f : A → option B) (l : list A) :
  (length (omap f l) ≤ length l)%nat.
Proof.
  induction l as [|x l IH]; csimpl; [done|].
  destruct (f x); csimpl; lia.
Qed.

Lemma exif_loop_filter items acc :
  exif_loop H evaluation acc items
  = exif_loop H evaluation acc (filter (named H) items).
Proof.
  revert acc. induction items as [|[k v] items IH]; intros acc; [done|].
  rewrite filter_cons. case_decide as Hn; cbn [exif_loop].
  - destruct (exif_step _ _ _ _); simpl; [apply IH|done].
  - assert (exif_step H evaluation acc (k, v) = Return acc) as ->; [|apply IH].
    unfold exif_step. unfold named in Hn. simpl in Hn.
    destruct (str_truthy _); [|done]. by destruct Hn.
Qed.

End exif_more.

Lemma StronglySorted_keys (l : list (Z * pyval)) :
  StronglySorted Z.lt l.*1 → StronglySorted (λ a b, a.1 < b.1) l.
Proof.
  induction l as [|a l IH]; simpl; intros Hs; [constructor|].
  apply StronglySorted_inv in Hs as [Hs Ha].
  constructor; [by apply IH|]. by rewrite Forall_fmap in Ha.
Qed.

Lemma StronglySorted_filter_keys (P : Z * pyval → Prop)
    `{!∀ kv, Decision (P kv)} (l : list (Z * pyval)) :
  StronglySorted (λ a b, a.1 < b.1) l →
  StronglySorted (λ a b : Z * pyval, a.1 < b.1) (filter P l).
Proof.
  induction 1 as [|a l Hs IH Ha]; [constructor|].
  rewrite filter_cons. case_decide; [|done].
  constructor; [done|].
  apply Forall_forall. intros b [_ Hb]%list_elem_of_filter.
  rewrite Forall_forall in Ha. by apply Ha.
Qed.

Lemma filter_sorted_items_agree (P : Z * pyval → Prop)
    `{!∀ kv, Decision (P kv)} (exif1 exif2 : gmap Z pyval) :
  (∀ k v, P (k, v) → exif1 !! k = Some v ↔ exif2 !! k = Some v) →
  filter P (sorted_items exif1) = filter P (sorted_items exif2).
Proof.
  intros Hagree.
  apply (StronglySorted_unique_strong (λ a b : Z * pyval, a.1 < b.1)).
  - intros ????. lia.
  - apply StronglySorted_filter_keys, StronglySorted_keys, sorted_items_keys.
  - apply StronglySorted_filter_keys, StronglySorted_keys, sorted_items_keys.
  - apply NoDup_Permutation.
    + apply NoDup_filter. rewrite sorted_items_Permutation.
      apply NoDup_map_to_list.
    + apply NoDup_filter. rewrite sorted_items_Permutation.
      apply NoDup_map_to_list.
    + intros [k v]. rewrite !list_elem_of_filter, !elem_of_sorted_items.
      split; intros [HP Hkv]; (split; [done|]); by apply (Hagree k v HP).
Qed.

(** A mapping without two-element tuples needs neither [Rational] nor the
    evaluator: [extract_exif] returns, whatever the host does. *)
Theorem extract_exif_no_rational (H : Host) (evaluation : Evaluation)
    (exif : gmap Z pyval) :
  (∀ k a b, exif !! k ≠ Some (PyTuple [a; b])) →
  ∃ r, extract_exif H evaluation (image_with exif) = Return r.
Proof.
  intros Hexif. unfold extract_exif, image_with. simpl.
  case_decide; [by eexists|].
  destruct (exif_loop_no_rational H evaluation (sorted_items exif) [])
    as [out ->]; [|by eexists].
  apply Forall_forall. intros [k v] Hkv%elem_of_sorted_items a b. simpl.
  intros ->. by apply (Hexif k a b).
Qed.

Lemma extract_exif_no_rational_witness :
  ∃ r, extract_exif no_pillow no_evaluation
         (image_with {[ 271 := PyStr "ACME"; 296 := PyInt 2 ]}) = Return r.
Proof.
  apply extract_exif_no_rational.
  intros k a b Hk.
  apply lookup_insert_Some in Hk as [[_ [=]]|[_ Hk]].
  by apply lookup_singleton_Some in Hk as [_ [=]].
Defined.

(** Only the call of [getexif] is guarded.  When [Rational] raises on an
    entry whose tag the standard dictionary names, [extract_exif] raises
    too. *)
Theorem extract_exif_rational_raises (H : Host) (evaluation : Evaluation)
    (exif : gmap Z pyval) (k : Z) (a b : pyval) (name : string) (e : exn) :
  exif !! k = Some (PyTuple [a; b]) →
  str_truthy (ExifTags H !! k) = Some name →
  Rational H a b = Raise e →
  ∃ e', extract_exif H evaluation (image_with exif) = Raise e'.
Proof.
  intros Hk Hname Hrat. unfold extract_exif, image_with. simpl.
  case_decide as Hne; [by rewrite Hne in Hk|].
  destruct (exif_loop_raises H evaluation (sorted_items exif) [] k a b name e)
    as [e' ->]; [by apply elem_of_sorted_items|done..|by eexists].
Qed.

Lemma extract_exif_rational_raises_witness :
  ∃ e', extract_exif small_host no_evaluation
          (image_with {[ 37386 := PyTuple [PyStr "50"; PyInt 1] ]}) = Raise e'.
Proof.
  apply (extract_exif_rational_raises small_host no_evaluation _ 37386
           (PyStr "50") (PyInt 1) "FocalLength" (HostError "Rational")).
  - apply lookup_singleton_Some. done.
  - reflexivity.
  - reflexivity.
Defined.

(** There are never more rules than entries in the mapping. *)
Theorem extract_exif_size (H : Host) (evaluation : Evaluation)
    (exif : gmap Z pyval) (exif_options : list Expr) :
  extract_exif H evaluation (image_with exif)
    = Return (Some (RawExif exif_options)) →
  (length exif_options ≤ size exif)%nat.
Proof.
  intros ->%extract_exif_spec.
  rewrite <- length_map_to_list, <- (sorted_items_Permutation exif).
  apply length_omap_le.
Qed.

Lemma extract_exif_size_witness :
  (length [Expression SymbolRule [MString "Make"; MString "ACME"]]
   ≤ size ({[ 271%Z := PyStr "ACME"; 700%Z := PyInt 1%Z ]} : gmap Z pyval))%nat.
Proof.
  apply (extract_exif_size small_host no_evaluation).
  vm_compute. reflexivity.
Defined.

(** The result depends only on the entries the standard dictionary names:
    two non-empty mappings that agree on those give the same result, or
    the same exception. *)
Theorem extract_exif_unnamed_irrelevant (H : Host) (evaluation : Evaluation)
    (exif1 exif2 : gmap Z pyval) :
  exif1 ≠ ∅ → exif2 ≠ ∅ →
  (∀ k, is_Some (str_truthy (ExifTags H !! k)) → exif1 !! k = exif2 !! k) →
  extract_exif H evaluation (image_with exif1)
  = extract_exif H evaluation (image_with exif2).
Proof.
  intros Hne1 Hne2 Hagree. unfold extract_exif, image_with. simpl.
  do 2 (case_decide; [done|]).
  rewrite (exif_loop_filter H evaluation (sorted_items exif1)),
    (exif_loop_filter H evaluation (sorted_items exif2)).
  rewrite (filter_sorted_items_agree (named H) exif1 exif2); [done|].
  intros k v Hk. unfold named in Hk. simpl in Hk. by rewrite (Hagree k Hk).
Qed.

Lemma extract_exif_unnamed_irrelevant_witness :
  extract_exif small_host no_evaluation
    (image_with {[ 271 := PyStr "ACME"; 700 := PyInt 1 ]})
  = extract_exif small_host no_evaluation
      (image_with {[ 271 := PyStr "ACME"; 701 := PyOther "float" ]}).
Proof.
  apply extract_exif_unnamed_irrelevant.
  - apply insert_non_empty.
  - apply insert_non_empty.
  - intros k Hk.
    destruct (decide (k = 271)) as [->|]; [reflexivity|].
    destruct (decide (k = 700)) as [->|]; [by destruct Hk|].
    destruct (decide (k = 701)) as [->|]; [by destruct Hk|].
    rewrite !lookup_insert_ne, !lookup_singleton_ne by done. reflexivity.
Defined.

(** ** Convolution: shapes, refusals and values *)

Lemma half_sum m : (m - 1) `div` 2 + m `div` 2 = m - 1.
Proof. Z.to_euclidean_division_equations. lia. Qed.

Ltac zcases :=
  repeat (simpl; match goal with
    | |- context [?a <? ?b] =>
        first [rewrite (proj2 (Z.ltb_lt a b)) by lia
              | rewrite (proj2 (Z.ltb_ge a b)) by lia]
    | |- context [?a =? ?b] =>
        first [rewrite (proj2 (Z.eqb_eq a b)) by lia
              | rewrite (proj2 (Z.eqb_neq a b)) by lia]
    | |- context [?a <=? ?b] =>
        first [rewrite (proj2 (Z.leb_le a b)) by lia
              | rewrite (proj2 (Z.leb_gt a b)) by lia]
    end); simpl.

(** [a[p:-p]] for a positive [p] leaves [n - 2 p] samples of [n], or none
    when there are fewer than [2 p]. *)
Lemma getitem_shape1 a n p :
  Nd.shape a = [n] → 0 < p → 0 ≤ n →
  ∃ out, Nd.getitem a [(p, - p)] = Return out
         ∧ Nd.shape out = [Z.max 0 (n - 2 * p)].
Proof.
  intros Hs Hp Hn. unfold Nd.getitem, Nd.ndim. rewrite Hs. simpl.
  eexists. split; [reflexivity|]. zcases.
  match goal with |- [?x] = [?y] => replace x with y by lia end. done.
Qed.

Lemma getitem_shape2 a n k p q :
  Nd.shape a = [n; k] → 0 < p → 0 ≤ n → 0 < q → 0 ≤ k →
  ∃ out, Nd.getitem a [(p, - p); (q, - q)] = Return out
         ∧ Nd.shape out = [Z.max 0 (n - 2 * p); Z.max 0 (k - 2 * q)].
Proof.
  intros Hs Hp Hn Hq Hk. unfold Nd.getitem, Nd.ndim. rewrite Hs. simpl.
  eexists. split; [reflexivity|]. zcases.
  match goal with
  | |- [?x; ?x'] = [?y; ?y'] =>
      replace x with y by lia; replace x' with y' by lia
  end. done.
Qed.

(** In one dimension, for a kernel of [m >= 2] samples: without padding
    the result has the [n - m + 1] samples of the full overlaps, none if
    the kernel is longer than that; with padding it has [n] samples for
    an odd [m] and [n + 1] for an even one. *)
Theorem convolve_shape_1d (in1 in2 : Nd.array) (fixed : bool) (n m : Z) :
  Nd.shape in1 = [n] → Nd.shape in2 = [m] → 1 ≤ n → 2 ≤ m →
  shape_of (convolve in1 in2 fixed)
  = Return [Z.max 0 (n + (if fixed then 2 * (m `div` 2) else 0) - m + 1)].
Proof.
  intros Hs1 Hs2 Hn Hm. unfold convolve. rewrite Hs2. simpl.
  pose proof (half_sum m) as Hhalf.
  assert (0 ≤ m `div` 2) by (apply Z.div_pos; lia).
  assert (∃ in1', (if fixed then Nd.pad_edge in1 [m `div` 2] else Return in1)
                  = Return in1'
                  ∧ Nd.shape in1'
                    = [n + (if fixed then 2 * (m `div` 2) else 0)])
    as (in1' & -> & Hs').
  { destruct fixed.
    - destruct (pad_edge_shape1 in1 n (m `div` 2)) as (in1' & -> & Hs');
        [done|lia|lia|].
      exists in1'. split; [done|]. rewrite Hs'. f_equal. lia.
    - exists in1. split; [done|]. rewrite Hs1. f_equal. lia. }
  set (P := if fixed then 2 * (m `div` 2) else 0) in *.
  assert (0 ≤ P) by (subst P; destruct fixed; lia).
  cbn [bind]. rewrite Hs'. unfold Nd.broadcast2 at 1. simpl.
  destruct (fft_convolve_shape in1' in2 [n + P + m - 1])
    as (ret & -> & Hret); [done|by rewrite Hs'|by rewrite Hs2| |].
  { repeat constructor. lia. }
  cbn [bind]. rewrite Hret. unfold Nd.broadcast2. simpl.
  replace (n + P + m - 1 - (n + P)) with (m - 1) by lia. rewrite Hhalf.
  destruct (getitem_shape1 ret (n + P + m - 1) (m - 1))
    as (out & -> & Hout); [done|lia|lia|].
  simpl. rewrite Hout.
  match goal with |- Return [?x] = Return [?y] => replace x with y by lia end.
  done.
Qed.

Lemma convolve_shape_1d_witness :
  shape_of (convolve (Nd.of_list [1; 2; 3; 4; 5]%Q) (Nd.of_list [1; 1]%Q) true)
  = Return [6].
Proof.
  apply (convolve_shape_1d (Nd.of_list [1; 2; 3; 4; 5]%Q) (Nd.of_list [1; 1]%Q)
           true 5 2); [reflexivity|reflexivity|lia|lia].
Defined.

(** In two dimensions, for a kernel of [a] rows and [b] columns, both at
    least 2: without padding the result is the [n - a + 1] by [k - b + 1]
    block of full overlaps.  With padding, [numpy.pad] reads the two
    paddings as (before, after) for both axes, so that each axis grows by
    [a div 2 + b div 2]: the result has the signal's shape when [a = b]
    is odd, and another shape in general. *)
Theorem convolve_shape_2d (in1 in2 : Nd.array) (fixed : bool) (n k a b : Z) :
  Nd.shape in1 = [n; k] → Nd.shape in2 = [a; b] →
  1 ≤ n → 1 ≤ k → 2 ≤ a → 2 ≤ b →
  shape_of (convolve in1 in2 fixed)
  = Return
      [Z.max 0 (n + (if fixed then a `div` 2 + b `div` 2 else 0) - a + 1);
       Z.max 0 (k + (if fixed then a `div` 2 + b `div` 2 else 0) - b + 1)].
Proof.
  intros Hs1 Hs2 Hn Hk Ha Hb. unfold convolve. rewrite Hs2. simpl.
  pose proof (half_sum a) as Hhalfa. pose proof (half_sum b) as Hhalfb.
  assert (0 ≤ a `div` 2) by (apply Z.div_pos; lia).
  assert (0 ≤ b `div` 2) by (apply Z.div_pos; lia).
  set (P := if fixed then a `div` 2 + b `div` 2 else 0) in *.
  assert (0 ≤ P) by (subst P; destruct fixed; lia).
  assert (∃ in1', (if fixed then Nd.pad_edge in1 [a `div` 2; b `div` 2]
                   else Return in1) = Return in1'
                  ∧ Nd.shape in1' = [n + P; k + P])
    as (in1' & -> & Hs').
  { subst P. destruct fixed.
    - destruct (pad_edge_shape2 in1 n k (a `div` 2) (b `div` 2))
        as (in1' & -> & Hs'); [done|lia..|].
      exists in1'. split; [done|]. rewrite Hs'. f_equal; [lia|f_equal; lia].
    - exists in1. split; [done|]. rewrite Hs1. f_equal; [lia|f_equal; lia]. }
  cbn [bind]. rewrite Hs'. unfold Nd.broadcast2 at 1. simpl.
  destruct (fft_convolve_shape in1' in2 [n + P + a - 1; k + P + b - 1])
    as (ret & -> & Hret); [done|by rewrite Hs'|by rewrite Hs2| |].
  { repeat constructor; lia. }
  cbn [bind]. rewrite Hret. unfold Nd.broadcast2. simpl.
  replace (n + P + a - 1 - (n + P)) with (a - 1) by lia.
  replace (k + P + b - 1 - (k + P)) with (b - 1) by lia.
  rewrite Hhalfa, Hhalfb.
  destruct (getitem_shape2 ret (n + P + a - 1) (k + P + b - 1) (a - 1) (b - 1))
    as (out & -> & Hout); [done|lia..|].
  simpl. rewrite Hout.
  match goal with
  | |- Return [?x; ?x'] = Return [?y; ?y'] =>
      replace x with y by lia; replace x' with y' by lia
  end. done.
Qed.

Lemma convolve_shape_2d_witness :
  shape_of (convolve (Nd.of_rows [[1; 2; 3; 4]; [5; 6; 7; 8]]%Q)
              (Nd.of_rows [[1; 1; 1; 1; 1]; [1; 1; 1; 1; 1]; [1; 1; 1; 1; 1]]%Q)
              true)
  = Return [3; 3].
Proof.
  apply (convolve_shape_2d (Nd.of_rows [[1; 2; 3; 4]; [5; 6; 7; 8]]%Q)
           (Nd.of_rows [[1; 1; 1; 1; 1]; [1; 1; 1; 1; 1]; [1; 1; 1; 1; 1]]%Q)
           true 2 4 3 5); [reflexivity|reflexivity|lia..].
Defined.

(** With padding, a kernel of three or more dimensions is refused:
    [numpy.pad] cannot read its halved shape as a pad width. *)
Theorem convolve_fixed_kernel_3d (in1 in2 : Nd.array) :
  (3 ≤ Nd.ndim in2)%nat →
  convolve in1 in2 true = Raise ValueError.
Proof.
  unfold convolve, Nd.ndim, Nd.pad_edge, Nd.as_pairs.
  destruct (Nd.shape in2) as [|a [|b [|c s]]]; simpl; try lia. done.
Qed.

Lemma convolve_fixed_kernel_3d_witness :
  convolve (Nd.of_list [1; 2; 3]%Q)
    {| Nd.shape := [3; 3; 3]; Nd.item := λ _, 1%Q |} true
  = Raise ValueError.
Proof. apply convolve_fixed_kernel_3d. unfold Nd.ndim. simpl. lia. Defined.

Lemma pad_edge_ndim a pad_width :
  Nd.pad_edge a pad_width = Raise ValueError
  ∨ ∃ a', Nd.pad_edge a pad_width = Return a' ∧ Nd.ndim a' = Nd.ndim a.
Proof.
  unfold Nd.pad_edge.
  destruct (Nd.as_pairs pad_width (Nd.ndim a)) as [pairs|e] eqn:Hpairs; simpl.
  - destruct (existsb _ _); [by left|]. right. eexists. split; [done|].
    unfold Nd.ndim in *. simpl. rewrite length_map, length_zip_with.
    assert (length pairs = length (Nd.shape a)); [|lia].
    unfold Nd.as_pairs in Hpairs.
    destruct pad_width as [|p [|q [|]]]; try done;
      destruct (_ : bool); try done; injection Hpairs as <-;
      apply length_replicate.
  - left. f_equal. unfold Nd.as_pairs in Hpairs.
    destruct pad_width as [|p [|q [|]]]; try (by injection Hpairs as <-);
      by destruct (_ : bool); try injection Hpairs as <-.
Qed.

Lemma fft_convolve_ndim a b s :
  (Nd.ndim a ≠ length s ∨ Nd.ndim b < length s)%nat →
  Nd.fft_convolve a b s = Raise ValueError.
Proof.
  intros Hs. unfold Nd.fft_convolve, Nd.fft_args_ok.
  destruct (_ && _) eqn:Hok; [|done].
  repeat match goal with
         | H : _ && _ = true |- _ => apply andb_true_iff in H as [? ?]
         | H : bool_decide _ = true |- _ => apply bool_decide_eq_true in H
         end.
  lia.
Qed.

(** A signal and a kernel with different numbers of dimensions, both at
    least one, are refused with a [ValueError], with and without
    padding. *)
Theorem convolve_ndim_mismatch (in1 in2 : Nd.array) (fixed : bool) :
  (1 ≤ Nd.ndim in1)%nat → (1 ≤ Nd.ndim in2)%nat →
  Nd.ndim in1 ≠ Nd.ndim in2 →
  convolve in1 in2 fixed = Raise ValueError.
Proof.
  intros H1 H2 Hne. unfold convolve.
  assert ((if fixed
           then Nd.pad_edge in1 (map (λ k, k `div` 2) (Nd.shape in2))
           else Return in1) = Raise ValueError
          ∨ ∃ in1', (if fixed
                     then Nd.pad_edge in1 (map (λ k, k `div` 2) (Nd.shape in2))
                     else Return in1) = Return in1'
                    ∧ Nd.ndim in1' = Nd.ndim in1) as [->| (in1' & -> & Hnd)].
  { destruct fixed; [apply pad_edge_ndim|]. right. by exists in1. }
  { done. }
  cbn [bind]. rewrite <- Hnd in *. clear Hnd in1. unfold Nd.ndim in *.
  unfold Nd.broadcast2 at 1. case_decide; [done|].
  destruct (Nd.shape in1') as [|x [|x' s1]] eqn:Hs1,
           (Nd.shape in2) as [|y [|y' s2]] eqn:Hs2;
    simpl in *; try lia; try done.
  - rewrite fft_convolve_ndim; [done|].
    left. unfold Nd.ndim. rewrite Hs1. simpl. rewrite !length_map. lia.
  - rewrite fft_convolve_ndim; [done|].
    right. unfold Nd.ndim. rewrite Hs2. simpl. rewrite !length_map. lia.
Qed.

Lemma convolve_ndim_mismatch_witness :
  convolve (Nd.of_rows [[1; 2]; [3; 4]]%Q) (Nd.of_list [1; 2; 1]%Q) false
  = Raise ValueError.
Proof.
  apply convolve_ndim_mismatch; unfold Nd.ndim; simpl; lia.
Defined.

(** ** Arrays as nested lists *)

(** [numpy_to_matrix] raises exactly on arrays of fewer than three
    dimensions, and then [IndexError]. *)
Theorem numpy_to_matrix_raises (pixels : Nd.array) (e : exn) :
  numpy_to_matrix pixels = Raise e
  ↔ e = IndexError ∧ (Nd.ndim pixels < 3)%nat.
Proof.
  unfold numpy_to_matrix, first_channel, Nd.ndim.
  destruct (Nd.shape pixels) as [|h [|w [|c s]]]; simpl;
    try (split; [intros [= <-]; split; [done|lia] | by intros [-> _]]).
  destruct (Z.eqb_spec c 1) as [->|]; simpl; (split; [done|]); intros [_ ?]; lia.
Qed.

(** For an array of [h] rows, [w] columns and [c] channels the result has
    [h] rows of [w] entries; an entry is the sample itself when there is
    one channel, the list of the [c] samples otherwise. *)
Theorem numpy_to_matrix_entries (pixels : Nd.array) (h w c : Z) :
  Nd.shape pixels = [h; w; c] →
  numpy_to_matrix pixels
  = Return
      (PyList
         (map (λ i,
                 PyList
                   (map (λ j,
                           if c =? 1 then PyScalar (Nd.item pixels [i; j; 0])
                           else PyList (map (λ ch, PyScalar (Nd.item pixels [i; j; ch]))
                                          (seqZ 0 c)))
                      (seqZ 0 w)))
            (seqZ 0 h))).
Proof.
  intros Hs. unfold numpy_to_matrix, first_channel, tolist. rewrite Hs. simpl.
  destruct (Z.eqb_spec c 1) as [->|]; reflexivity.
Qed.

Lemma numpy_to_matrix_entries_witness :
  numpy_to_matrix {| Nd.shape := [1; 2; 1];
                     Nd.item := λ idx, inject_Z (default 0 (idx !! 1%nat)) |}
  = Return (PyList [PyList [PyScalar 0%Q; PyScalar 1%Q]]).
Proof.
  rewrite (numpy_to_matrix_entries
             {| Nd.shape := [1; 2; 1];
                Nd.item := λ idx, inject_Z (default 0 (idx !! 1%nat)) |} 1 2 1)
    by reflexivity.
  reflexivity.
Defined.

(** ** Convolution with three taps *)









